(** * packetd: the nfqueue dispatch of [services/dispatch]

    A shallow embedding of the per-packet dispatch ([nfqueueCallback],
    [callSubscribers], [ReleaseSession], the subscription registry) and the
    properties of its verdict, mark, session and bypass handling.

    Sources, both of package [dispatch]: the file of the packet callback
    ([nfqueueCallback], [callSubscribers], [ReleaseSession], the registry
    [nfqueueList]), called nfqueue.go below, and the file of the service
    ([Startup], [dupIP], the registry [nfqueueSubList] with its
    [InsertNfqueueSubscription]), called dispatch.go below.  The session
    table, the session-id counter, the tuple strings and the dictionary are
    used by these files but defined elsewhere; they are modelled from the
    specification and marked as such.

    Conventions.
    - Go's fixed-width integers are [Z] with the wrap-around written out
      ([uint8], [uint16], [uint64]); a [uint32] mark only meets [&] and [|],
      which stay in range.
    - Go maps are [gmap]s.  A [*SessionEntry] is an address into [heap], so
      that the session table, the local variable [session] and the message
      field [Session] alias one record, as they do in the source.
    - A [panic] is the outcome [Fatal]; every function that can reach one
      returns an [Outcome].
    - A handler is the function of its three arguments that the dispatch
      sees: it either delivers a result or is overtaken by the guard timer.
      What a plugin does on the side (attachments, its own dictionary keys)
      is outside the dispatch; a release reaches the session through the
      [SessionRelease] flag of a result, as in [callSubscribers].
      The goroutines of one priority layer then only differ in the order in
      which their results arrive, and that order is shown not to matter
      ([foldl_mergeResult_perm]); the model reads them in the order in which
      the mirror is ranged over.
    - [callLog] is a ghost field: it records the owner of every handler
      goroutine that is started.
    - Logging calls have no effect on the modelled state and are left out. *)

From stdpp Require Import gmap strings list fin_maps pretty.
From Stdlib Require Import ZArith Lia.

Open Scope Z_scope.

(** ** Machine integers *)

Definition uint8 (z : Z) : Z := z mod 2 ^ 8.
Definition uint16 (z : Z) : Z := z mod 2 ^ 16.
Definition uint64 (z : Z) : Z := z mod 2 ^ 64.

(** ** Results of a call that may panic *)

Inductive Outcome (A : Type) : Type :=
  | Returned (a : A)
  | Fatal (msg : string).
Arguments Returned {A} a.
Arguments Fatal {A} msg.

(** ** Constants of nfqueue.go *)

Definition NfDrop : Z := 0.
Definition NfAccept : Z := 1.

(** ** Packets

    The view of a [gopacket.Packet] that [nfqueueCallback] reads: the layers
    it asks for, each present or [nil], with the fields it copies. *)

Record IPv4 : Type := {
  IP4Protocol : Z;
  IP4SrcIP : list Z;
  IP4DstIP : list Z;
  IP4TTL : Z
}.

Record IPv6 : Type := {
  IP6NextHeader : Z;
  IP6SrcIP : list Z;
  IP6DstIP : list Z;
  IP6HopLimit : Z
}.

Record TCP : Type := { TCPSrcPort : Z; TCPDstPort : Z }.
Record UDP : Type := { UDPSrcPort : Z; UDPDstPort : Z }.
Record ICMPv4 : Type := { ICMPId : Z }.

Record Packet : Type := {
  LayerIPv4 : option IPv4;
  LayerIPv6 : option IPv6;
  LayerTCP : option TCP;
  LayerUDP : option UDP;
  LayerICMPv4 : option ICMPv4;
  ApplicationLayer : option (list Z)
}.

(** ** Tuples *)

Record Tuple : Type := {
  Protocol : Z;
  ClientAddress : list Z;
  ClientPort : Z;
  ServerAddress : list Z;
  ServerPort : Z
}.

(** Modelled from the spec: the rendering of an address inside a tuple string
    (the [String] methods of [Tuple] are not among the sources; the spec fixes
    the shape ["proto|client:cport-server:sport"] and leaves the address text
    open).  The bytes are printed in decimal, separated by dots. *)
Definition ipString (ip : list Z) : string :=
  String.concat "." (map pretty ip).

(** Modelled from the spec: [Tuple.String], the forward form
    ["proto|client:cport-server:sport"], the key of the session table. *)
Definition TupleString (t : Tuple) : string :=
  pretty (Protocol t) +:+ "|" +:+ ipString (ClientAddress t) +:+ ":" +:+
  pretty (ClientPort t) +:+ "-" +:+ ipString (ServerAddress t) +:+ ":" +:+
  pretty (ServerPort t).

(** Modelled from the spec: [Tuple.StringReverse], the forward form with
    client and server swapped. *)
Definition TupleStringReverse (t : Tuple) : string :=
  pretty (Protocol t) +:+ "|" +:+ ipString (ServerAddress t) +:+ ":" +:+
  pretty (ServerPort t) +:+ "-" +:+ ipString (ClientAddress t) +:+ ":" +:+
  pretty (ClientPort t).

(** ** Messages, results, subscriptions *)

Definition Ptr : Type := nat.

Record NfqueueMessage : Type := {
  Session : option Ptr;
  MsgTuple : Tuple;
  MsgPacket : Packet;
  Length : Z;
  ClientToServer : bool;
  IP4Layer : option IPv4;
  IP6Layer : option IPv6;
  TCPLayer : option TCP;
  UDPLayer : option UDP;
  ICMPv4Layer : option ICMPv4;
  Payload : list Z
}.

Record NfqueueResult : Type := {
  Owner : string;
  PacketMark : Z;
  SessionRelease : bool
}.

(** What one run of a handler looks like from the goroutine that guards it
    (the [select] of [callSubscribers]): either the handler delivers its
    result on [c] first, or [timeoutTimer.C] fires first. *)
Inductive HandlerRun : Type :=
  | Completed (result : NfqueueResult)
  | GuardExpired.

(** A handler as [callSubscribers] meets it: called with the message, the
    conntrack id and the new-session flag, it answers on the channel or is
    overtaken.  A Go handler also holds [mess.Session] and can write through
    it on its own account (an attachment, a dictionary key of its own, a
    direct [ReleaseSession]); such writes are the plugin's, not the
    dispatch's, and are not modelled.  The theorems on the fan-out speak of
    what the dispatch does with the results it collects. *)
Definition NfqueueHandlerFunction : Type :=
  NfqueueMessage -> Z -> bool -> HandlerRun.

(** [ConntrackFunc] and [NetloggerFunc] are not used by the nfqueue path. *)
Record SubscriptionHolder : Type := {
  HolderOwner : string;
  Priority : Z;
  NfqueueFunc : NfqueueHandlerFunction
}.

(** ** Sessions *)

Record SessionEntry : Type := {
  SessionID : Z;
  PacketCount : Z;
  ByteCount : Z;
  CreationTime : Z;
  LastActivityTime : Z;
  ClientSideTuple : Tuple;
  ConntrackConfirmed : bool;
  ConntrackID : Z;
  EventCount : Z;
  subscriptions : gmap string SubscriptionHolder;
  attachments : gmap string Z
}.

Definition setSubscriptions (subs : gmap string SubscriptionHolder)
    (s : SessionEntry) : SessionEntry :=
  {| SessionID := SessionID s; PacketCount := PacketCount s;
     ByteCount := ByteCount s; CreationTime := CreationTime s;
     LastActivityTime := LastActivityTime s;
     ClientSideTuple := ClientSideTuple s;
     ConntrackConfirmed := ConntrackConfirmed s;
     ConntrackID := ConntrackID s; EventCount := EventCount s;
     subscriptions := subs; attachments := attachments s |}.

(** The "accounting bits" of [nfqueueCallback]. *)
Definition accountPacket (now : Z) (length : Z) (s : SessionEntry) : SessionEntry :=
  {| SessionID := SessionID s;
     PacketCount := uint64 (PacketCount s + 1);
     ByteCount := uint64 (ByteCount s + uint64 length);
     CreationTime := CreationTime s;
     LastActivityTime := now;
     ClientSideTuple := ClientSideTuple s;
     ConntrackConfirmed := ConntrackConfirmed s;
     ConntrackID := ConntrackID s;
     EventCount := uint64 (EventCount s + 1);
     subscriptions := subscriptions s; attachments := attachments s |}.

(** ** The process state *)

Inductive DictValue : Type :=
  | DictBool (b : bool)
  | DictUint (z : Z).

Record World : Type := {
  (** [nfqueueList], the registry of nfqueue.go *)
  nfqueueList : gmap string SubscriptionHolder;
  (** the session table, by forward tuple string *)
  sessionTable : gmap string Ptr;
  (** the session table, by conntrack id *)
  conntrackIndex : gmap Z Ptr;
  (** the allocated [SessionEntry] records *)
  heap : gmap Ptr SessionEntry;
  (** [sessionIndex], the session id counter *)
  sessionIndex : Z;
  (** the dictionary service, keyed by (ctid, name) *)
  dictTable : gmap (Z * string) DictValue;
  (** the reading of [time.Now()] *)
  wallClock : Z;
  (** ghost: the owners whose handler goroutine was started, oldest first *)
  callLog : list string
}.

Definition setNfqueueList (r : gmap string SubscriptionHolder) (st : World) : World :=
  {| nfqueueList := r; sessionTable := sessionTable st;
     conntrackIndex := conntrackIndex st; heap := heap st;
     sessionIndex := sessionIndex st; dictTable := dictTable st;
     wallClock := wallClock st; callLog := callLog st |}.

Definition setTables (t : gmap string Ptr) (c : gmap Z Ptr) (st : World) : World :=
  {| nfqueueList := nfqueueList st; sessionTable := t;
     conntrackIndex := c; heap := heap st;
     sessionIndex := sessionIndex st; dictTable := dictTable st;
     wallClock := wallClock st; callLog := callLog st |}.

Definition setHeap (h : gmap Ptr SessionEntry) (st : World) : World :=
  {| nfqueueList := nfqueueList st; sessionTable := sessionTable st;
     conntrackIndex := conntrackIndex st; heap := h;
     sessionIndex := sessionIndex st; dictTable := dictTable st;
     wallClock := wallClock st; callLog := callLog st |}.

Definition setSessionIndex (i : Z) (st : World) : World :=
  {| nfqueueList := nfqueueList st; sessionTable := sessionTable st;
     conntrackIndex := conntrackIndex st; heap := heap st;
     sessionIndex := i; dictTable := dictTable st;
     wallClock := wallClock st; callLog := callLog st |}.

Definition setDictTable (d : gmap (Z * string) DictValue) (st : World) : World :=
  {| nfqueueList := nfqueueList st; sessionTable := sessionTable st;
     conntrackIndex := conntrackIndex st; heap := heap st;
     sessionIndex := sessionIndex st; dictTable := d;
     wallClock := wallClock st; callLog := callLog st |}.

Definition logCalls (owners : list string) (st : World) : World :=
  {| nfqueueList := nfqueueList st; sessionTable := sessionTable st;
     conntrackIndex := conntrackIndex st; heap := heap st;
     sessionIndex := sessionIndex st; dictTable := dictTable st;
     wallClock := wallClock st; callLog := callLog st ++ owners |}.

(** The state [Startup] of dispatch.go leaves behind at epoch second
    [epoch]: empty tables and the counter seeded with
    [(epoch & 0xFFFFFFFF) << 16].  [Startup] allocates the registry of
    dispatch.go; the registry [nfqueueList] of nfqueue.go is allocated by
    none of the sources and is taken to start empty in the same way. *)
Definition Startup (epoch : Z) : World :=
  {| nfqueueList := ∅; sessionTable := ∅; conntrackIndex := ∅; heap := ∅;
     sessionIndex := uint64 (Z.shiftl (Z.land (uint64 epoch) 0xFFFFFFFF) 16);
     dictTable := ∅; wallClock := epoch; callLog := [] |}.

(** ** The dictionary and the session table *)

(** Modelled from the spec: [dict.AddSessionEntry], the write of one entry
    [(ctid, name) := value] of the external dictionary service. *)
Definition AddSessionEntry (ctid : Z) (name : string) (value : DictValue)
    (st : World) : World :=
  setDictTable (<[(ctid, name) := value]> (dictTable st)) st.

(** Modelled from the spec: [nextSessionID], which hands out the value of the
    monotonic counter [sessionIndex] and advances it. *)
Definition nextSessionID (st : World) : Z * World :=
  (sessionIndex st, setSessionIndex (uint64 (sessionIndex st + 1)) st).

(** Modelled from the spec: [findSessionEntry], the lookup by tuple string. *)
Definition findSessionEntry (finder : string) (st : World) : option Ptr :=
  sessionTable st !! finder.

(** Modelled from the spec: [insertSessionEntry], which enters the record in
    both indexes and replaces any prior entry under the same key. *)
Definition insertSessionEntry (finder : string) (entry : Ptr) (st : World) : World :=
  match heap st !! entry with
  | Some s =>
      setTables (<[finder := entry]> (sessionTable st))
                (<[ConntrackID s := entry]> (conntrackIndex st)) st
  | None => setTables (<[finder := entry]> (sessionTable st)) (conntrackIndex st) st
  end.

(** Modelled from the spec: [removeSessionEntry], which removes the record
    stored under the tuple string from both indexes. *)
Definition removeSessionEntry (finder : string) (st : World) : World :=
  match sessionTable st !! finder with
  | Some entry =>
      match heap st !! entry with
      | Some s =>
          setTables (delete finder (sessionTable st))
                    (delete (ConntrackID s) (conntrackIndex st)) st
      | None => setTables (delete finder (sessionTable st)) (conntrackIndex st) st
      end
  | None => st
  end.

(** ** The subscription registry *)

(** dispatch.go keeps its own registry, [nfqueueSubList], and guards its
    registration against a second subscription of one owner. *)
Module DispatchGo.

(** [InsertNfqueueSubscription] of dispatch.go, on the registry
    [nfqueueSubList]: the entry is written first, the duplicate is reported
    after the lock is released. *)
Definition InsertNfqueueSubscription (owner : string) (priority : Z)
    (function : NfqueueHandlerFunction)
    (nfqueueSubList : gmap string SubscriptionHolder)
    : Outcome unit * gmap string SubscriptionHolder :=
  let holder :=
    {| HolderOwner := owner; Priority := priority; NfqueueFunc := function |} in
  let existing := bool_decide (is_Some (nfqueueSubList !! owner)) in
  let nfqueueSubList := <[owner := holder]> nfqueueSubList in
  if existing
  then (Fatal "DUPLICATE NFQUEUE SUBSCRIPTION DETECTED!", nfqueueSubList)
  else (Returned (), nfqueueSubList).

End DispatchGo.

(** [InsertNfqueueSubscription] of nfqueue.go, on [nfqueueList]. *)
Definition InsertNfqueueSubscription (owner : string) (priority : Z)
    (function : NfqueueHandlerFunction) (st : World) : World :=
  let holder :=
    {| HolderOwner := owner; Priority := priority; NfqueueFunc := function |} in
  setNfqueueList (<[owner := holder]> (nfqueueList st)) st.

(** [AttachNfqueueSubscriptions]: the session gets a map of its own holding
    every entry of the registry. *)
Definition AttachNfqueueSubscriptions (session : Ptr) (st : World) : World :=
  setHeap (alter (setSubscriptions (nfqueueList st)) session (heap st)) st.

(** [MirrorNfqueueSubscriptions]: a copy of the session's map; [None] when the
    pointer does not lead to a record. *)
Definition MirrorNfqueueSubscriptions (session : Ptr) (st : World)
    : option (gmap string SubscriptionHolder) :=
  subscriptions <$> heap st !! session.

(** [ReleaseSession]. *)
Definition ReleaseSession (session : Ptr) (owner : string) (st : World) : World :=
  match heap st !! session with
  | None => st
  | Some s =>
      let origLen := size (subscriptions s) in
      if bool_decide (origLen = 0%nat) then st
      else
        let subs := delete owner (subscriptions s) in
        let st := setHeap (<[session := setSubscriptions subs s]> (heap st)) st in
        let len := size subs in
        if bool_decide (len = 0%nat)
        then AddSessionEntry (ConntrackID s) "bypass_packetd" (DictBool true) st
        else st
  end.

(** ** Building the message *)

(** [dupIP] of dispatch.go: a copy of the address bytes. *)
Definition dupIP (ip : list Z) : list Z := ip.

Definition setPorts (clientPort serverPort : Z) (t : Tuple) : Tuple :=
  {| Protocol := Protocol t; ClientAddress := ClientAddress t;
     ClientPort := clientPort; ServerAddress := ServerAddress t;
     ServerPort := serverPort |}.

(** The first part of [nfqueueCallback], up to the session lookup: the layers
    and the tuple of the message; [None] when the packet has neither an IPv4
    nor an IPv6 layer. *)
Definition parseMessage (packet : Packet) (packetLength : Z) : option NfqueueMessage :=
  let tuple0 :=
    match LayerIPv4 packet, LayerIPv6 packet with
    | Some ip4, _ =>
        Some {| Protocol := uint8 (IP4Protocol ip4);
                ClientAddress := dupIP (IP4SrcIP ip4); ClientPort := 0;
                ServerAddress := dupIP (IP4DstIP ip4); ServerPort := 0 |}
    | None, Some ip6 =>
        Some {| Protocol := uint8 (IP6NextHeader ip6);
                ClientAddress := dupIP (IP6SrcIP ip6); ClientPort := 0;
                ServerAddress := dupIP (IP6DstIP ip6); ServerPort := 0 |}
    | None, None => None
    end in
  match tuple0 with
  | None => None
  | Some t =>
      let t := match LayerTCP packet with
               | Some tcp => setPorts (uint16 (TCPSrcPort tcp)) (uint16 (TCPDstPort tcp)) t
               | None => t
               end in
      let t := match LayerUDP packet with
               | Some udp => setPorts (uint16 (UDPSrcPort udp)) (uint16 (UDPDstPort udp)) t
               | None => t
               end in
      let t := match LayerICMPv4 packet with
               | Some icmp => setPorts (uint16 (ICMPId icmp)) (uint16 (ICMPId icmp)) t
               | None => t
               end in
      Some {| Session := None; MsgTuple := t; MsgPacket := packet;
              Length := packetLength; ClientToServer := false;
              IP4Layer := LayerIPv4 packet;
              IP6Layer := match LayerIPv4 packet with
                          | Some _ => None
                          | None => LayerIPv6 packet
                          end;
              TCPLayer := LayerTCP packet; UDPLayer := LayerUDP packet;
              ICMPv4Layer := LayerICMPv4 packet;
              Payload := default [] (ApplicationLayer packet) |}
  end.

Definition setSession (session : option Ptr) (clientToServer : bool)
    (mess : NfqueueMessage) : NfqueueMessage :=
  {| Session := session; MsgTuple := MsgTuple mess; MsgPacket := MsgPacket mess;
     Length := Length mess; ClientToServer := clientToServer;
     IP4Layer := IP4Layer mess; IP6Layer := IP6Layer mess;
     TCPLayer := TCPLayer mess; UDPLayer := UDPLayer mess;
     ICMPv4Layer := ICMPv4Layer mess; Payload := Payload mess |}.

(** ** Session lookup and creation *)

(** [lookupSessionEntry]: forward key first, then the reverse key. *)
Definition lookupSessionEntry (mess : NfqueueMessage) (ctid : Z) (st : World)
    : option Ptr * bool :=
  match findSessionEntry (TupleString (MsgTuple mess)) st with
  | Some session => (Some session, true)
  | None =>
      match findSessionEntry (TupleStringReverse (MsgTuple mess)) st with
      | Some session => (Some session, false)
      | None => (None, true)
      end
  end.

(** [createSessionEntry]. *)
Definition createSessionEntry (mess : NfqueueMessage) (ctid : Z) (st : World)
    : Ptr * World :=
  let session := fresh (dom (heap st)) in
  let '(id, st) := nextSessionID st in
  let s := {| SessionID := id; PacketCount := 1;
              ByteCount := uint64 (Length mess);
              CreationTime := wallClock st; LastActivityTime := wallClock st;
              ClientSideTuple := MsgTuple mess; ConntrackConfirmed := false;
              ConntrackID := ctid; EventCount := 1;
              subscriptions := ∅; attachments := ∅ |} in
  let st := setHeap (<[session := s]> (heap st)) st in
  let st := AttachNfqueueSubscriptions session st in
  let st := insertSessionEntry (TupleString (MsgTuple mess)) session st in
  (session, st).

(** ** The fan-out *)

(** The goroutine started for one subscriber: the handler's result, or the
    result made up for it when the guard timer fires first. *)
Definition guardedCall (mess : NfqueueMessage) (ctid : Z) (newSession : bool)
    (sub : string * SubscriptionHolder) : NfqueueResult :=
  match NfqueueFunc sub.2 mess ctid newSession with
  | Completed result => result
  | GuardExpired => {| Owner := sub.1; PacketMark := 0; SessionRelease := true |}
  end.

(** One read of [resultsChannel] in the collecting loop. *)
Definition mergeResult (session : Ptr) (acc : Z * World) (result : NfqueueResult)
    : Z * World :=
  (Z.lor acc.1 (PacketMark result),
   if SessionRelease result then ReleaseSession session (Owner result) acc.2
   else acc.2).

(** The subscribers of one priority, in the order the mirror is ranged over. *)
Definition layerOf (sublist : gmap string SubscriptionHolder) (priority : Z)
    : list (string * SubscriptionHolder) :=
  filter (λ sub, Priority sub.2 = priority) (map_to_list sublist).

(** The loop [for subcount != subtotal] of [callSubscribers].  Every turn
    starts the handlers of one priority, reads as many results as handlers
    were started, and raises [priority]; the turn that raises it past 100
    panics, so 101 turns always suffice ([priorityLoop_run]); [None] is the
    loop running out of [fuel]. *)
Fixpoint priorityLoop (fuel : nat) (sublist : gmap string SubscriptionHolder)
    (subtotal : nat) (session : Ptr) (mess : NfqueueMessage) (ctid : Z)
    (newSession : bool) (priority : Z) (subcount : nat) (pmark : Z) (st : World)
    : option (Outcome (Z * Z) * World) :=
  if bool_decide (subcount = subtotal) then Some (Returned (NfAccept, pmark), st)
  else
    match fuel with
    | O => None
    | S fuel =>
        let layer := layerOf sublist priority in
        let st := logCalls layer.*1 st in
        let hitcount := length layer in
        let subcount := (subcount + hitcount)%nat in
        let results := map (guardedCall mess ctid newSession) layer in
        let merged := foldl (mergeResult session) (pmark, st) results in
        let priority := priority + 1 in
        if bool_decide (priority > 100)
        then Some (Fatal "Constraint failed - infinite loop detected", merged.2)
        else priorityLoop fuel sublist subtotal session mess ctid newSession
               priority subcount merged.1 merged.2
    end.

(** [callSubscribers]. *)
Definition callSubscribers (ctid : Z) (session : Ptr) (mess : NfqueueMessage)
    (pmark : Z) (newSession : bool) (st : World)
    : option (Outcome (Z * Z) * World) :=
  match MirrorNfqueueSubscriptions session st with
  | None => Some (Fatal "invalid memory address or nil pointer dereference", st)
  | Some sublist =>
      priorityLoop 101 sublist (size sublist) session mess ctid newSession
        0 0%nat pmark st
  end.

(** ** The packet callback *)

(** "Update some accounting bits", through the session pointer. *)
Definition account (session : Ptr) (mess : NfqueueMessage) (st : World) : World :=
  setHeap (alter (accountPacket (wallClock st) (Length mess)) session (heap st)) st.

(** The tail of [nfqueueCallback] once the session is settled: the
    accounting bits, then the fan-out. *)
Definition accountAndCall (ctid : Z) (session : Ptr) (mess : NfqueueMessage)
    (pmark : Z) (newSession : bool) (st : World)
    : option (Outcome (Z * Z) * World) :=
  callSubscribers ctid session mess pmark newSession (account session mess st).

(** [nfqueueCallback]. *)
Definition nfqueueCallback (ctid : Z) (packet : Packet) (packetLength : Z)
    (pmark : Z) (st : World) : option (Outcome (Z * Z) * World) :=
  match parseMessage packet packetLength with
  | None => Some (Returned (NfAccept, pmark), st)
  | Some mess =>
      let newSession := negb (Z.land pmark 0x10000000 =? 0) in
      let '(session, clientToServer) := lookupSessionEntry mess ctid st in
      let mess := setSession session clientToServer mess in
      match session with
      | None =>
          if negb newSession
          then Some (Returned (NfAccept, pmark),
                     AddSessionEntry ctid "bypass_packetd" (DictBool true) st)
          else
            let '(session, st) := createSessionEntry mess ctid st in
            let mess := setSession (Some session) clientToServer mess in
            accountAndCall ctid session mess pmark newSession st
      | Some found =>
          match heap st !! found with
          | None =>
              Some (Fatal "invalid memory address or nil pointer dereference", st)
          | Some s =>
              if newSession && negb (ConntrackConfirmed s)
              then
                let st := removeSessionEntry (TupleString (MsgTuple mess)) st in
                let '(session, st) := createSessionEntry mess ctid st in
                let mess := setSession (Some session) clientToServer mess in
                accountAndCall ctid session mess pmark newSession st
              else accountAndCall ctid found mess pmark newSession st
          end
      end
  end.

(** ** Auxiliary notions for the proofs *)

(** One subscriber handled on its own: its goroutine is started, then its
    result is merged. *)
Definition step (session : Ptr) (mess : NfqueueMessage) (ctid : Z)
    (newSession : bool) (acc : Z * World) (sub : string * SubscriptionHolder)
    : Z * World :=
  mergeResult session (acc.1, logCalls [sub.1] acc.2)
    (guardedCall mess ctid newSession sub).

(** The layers of [n] consecutive priorities, lowest first. *)
Fixpoint layersFrom (sublist : gmap string SubscriptionHolder) (priority : Z)
    (n : nat) : list (string * SubscriptionHolder) :=
  match n with
  | O => []
  | S n => layerOf sublist priority ++ layersFrom sublist (priority + 1) n
  end.

(** The subscribers whose priority lies in [lo, hi). *)
Definition priorityBand (sublist : gmap string SubscriptionHolder) (lo hi : Z)
    : list (string * SubscriptionHolder) :=
  filter (λ sub, lo ≤ Priority sub.2 < hi) (map_to_list sublist).

(** The bitwise OR of the marks that the subscribers of [l] return. *)
Definition orMarks (mess : NfqueueMessage) (ctid : Z) (newSession : bool)
    (l : list (string * SubscriptionHolder)) : Z :=
  foldr (λ sub acc, Z.lor (PacketMark (guardedCall mess ctid newSession sub)) acc) 0 l.

(** The subscription map of a session, empty for a pointer without record. *)
Definition subscribed (session : Ptr) (st : World) : gmap string SubscriptionHolder :=
  default ∅ (subscriptions <$> heap st !! session).

(** The bypass entry that [ReleaseSession] writes for a session. *)
Definition bypassSet (ctid : Z) (st : World) : Prop :=
  dictTable st !! (ctid, "bypass_packetd") = Some (DictBool true).

(** Once the subscriptions of [session] are empty its bypass entry is set. *)
Definition bypassInv (session : Ptr) (st : World) : Prop :=
  ∀ s, heap st !! session = Some s → subscriptions s = ∅ →
       bypassSet (ConntrackID s) st.

(** What a fan-out on [session] may change in the records: nothing but the
    subscriptions of [session], which can only lose entries. *)
Definition heapShrinks (session : Ptr) (st st' : World) : Prop :=
  ∀ p, match heap st !! p with
       | None => heap st' !! p = None
       | Some s =>
           ∃ subs, heap st' !! p = Some (setSubscriptions subs s)
                   ∧ subs ⊆ subscriptions s
                   ∧ (p ≠ session → subs = subscriptions s)
       end.

(** What a fan-out may change in the dictionary: bypass entries set to true. *)
Definition dictGrows (st st' : World) : Prop :=
  ∀ k, dictTable st' !! k = dictTable st !! k
       ∨ (k.2 = "bypass_packetd" ∧ dictTable st' !! k = Some (DictBool true)).

(** The part of the state a fan-out on [session] leaves alone. *)
Definition fanoutFrame (session : Ptr) (st st' : World) : Prop :=
  nfqueueList st' = nfqueueList st
  ∧ sessionTable st' = sessionTable st
  ∧ conntrackIndex st' = conntrackIndex st
  ∧ sessionIndex st' = sessionIndex st
  ∧ wallClock st' = wallClock st
  ∧ heapShrinks session st st'
  ∧ dictGrows st st'.

(** Every subscription of [sublist] has its priority in [lo, hi]. *)
Definition prioritiesIn (lo hi : Z) (sublist : gmap string SubscriptionHolder) : Prop :=
  ∀ owner holder, sublist !! owner = Some holder → lo ≤ Priority holder ≤ hi.

(** What [callSubscribers] hands back for a mirror [sublist]: the verdict
    with the merged mark when the loop ends by itself, the panic otherwise. *)
Definition fanoutOutcome (mess : NfqueueMessage) (ctid : Z) (newSession : bool)
    (pmark : Z) (sublist : gmap string SubscriptionHolder) : Outcome (Z * Z) :=
  if bool_decide (length (priorityBand sublist 0 100) = size sublist)
  then Returned (NfAccept,
                 Z.lor pmark (orMarks mess ctid newSession (map_to_list sublist)))
  else Fatal "Constraint failed - infinite loop detected".

(** The record [createSessionEntry] builds for a message in state [st]. *)
Definition freshSession (mess : NfqueueMessage) (ctid : Z) (st : World) : SessionEntry :=
  {| SessionID := sessionIndex st; PacketCount := 1;
     ByteCount := uint64 (Length mess);
     CreationTime := wallClock st; LastActivityTime := wallClock st;
     ClientSideTuple := MsgTuple mess; ConntrackConfirmed := false;
     ConntrackID := ctid; EventCount := 1;
     subscriptions := nfqueueList st; attachments := ∅ |}.

(** The new-session bit of a mark. *)
Definition newSessionBit (pmark : Z) : bool := negb (Z.land pmark 0x10000000 =? 0).

(** Where [nfqueueCallback] stands when it reaches "Update some accounting
    bits": the ways it can have left before, or the session, message and
    state it goes on with. *)
Inductive Resolution : Type :=
  | NotIP
  | MidSession (st : World)
  | NilSession
  | Dispatch (session : Ptr) (mess : NfqueueMessage) (st : World).

Definition resolve (ctid : Z) (packet : Packet) (packetLength : Z) (pmark : Z)
    (st : World) : Resolution :=
  match parseMessage packet packetLength with
  | None => NotIP
  | Some mess =>
      let '(session, clientToServer) := lookupSessionEntry mess ctid st in
      let mess := setSession session clientToServer mess in
      match session with
      | None =>
          if negb (newSessionBit pmark)
          then MidSession (AddSessionEntry ctid "bypass_packetd" (DictBool true) st)
          else
            let '(session, st) := createSessionEntry mess ctid st in
            Dispatch session (setSession (Some session) clientToServer mess) st
      | Some found =>
          match heap st !! found with
          | None => NilSession
          | Some s =>
              if newSessionBit pmark && negb (ConntrackConfirmed s)
              then
                let st := removeSessionEntry (TupleString (MsgTuple mess)) st in
                let '(session, st) := createSessionEntry mess ctid st in
                Dispatch session (setSession (Some session) clientToServer mess) st
              else Dispatch found mess st
          end
      end
  end.

(** ** Example plugins, packets and states *)

(** A plugin that always answers with the same result. *)
Definition passive (owner : string) (mark : Z) (release : bool)
    : NfqueueHandlerFunction :=
  λ _ _ _, Completed {| Owner := owner; PacketMark := mark; SessionRelease := release |}.

(** A plugin that never answers before the guard timer fires. *)
Definition sleeper : NfqueueHandlerFunction := λ _ _ _, GuardExpired.

(** TCP SYN 10.0.0.1:50000 -> 93.184.216.34:443. *)
Definition synPacket : Packet :=
  {| LayerIPv4 := Some {| IP4Protocol := 6; IP4SrcIP := [10; 0; 0; 1];
                          IP4DstIP := [93; 184; 216; 34]; IP4TTL := 64 |};
     LayerIPv6 := None;
     LayerTCP := Some {| TCPSrcPort := 50000; TCPDstPort := 443 |};
     LayerUDP := None; LayerICMPv4 := None; ApplicationLayer := None |}.

(** The packet of the opposite direction, 93.184.216.34:443 -> 10.0.0.1:50000. *)
Definition replyPacket : Packet :=
  {| LayerIPv4 := Some {| IP4Protocol := 6; IP4SrcIP := [93; 184; 216; 34];
                          IP4DstIP := [10; 0; 0; 1]; IP4TTL := 57 |};
     LayerIPv6 := None;
     LayerTCP := Some {| TCPSrcPort := 443; TCPDstPort := 50000 |};
     LayerUDP := None; LayerICMPv4 := None; ApplicationLayer := None |}.

Definition synKey : string := "6|10.0.0.1:50000-93.184.216.34:443".
Definition replyKey : string := "6|93.184.216.34:443-10.0.0.1:50000".

(** Plugins A (priority 0, mark 1) and B (priority 1, mark 2), no release. *)
Definition twoPlugins : World :=
  InsertNfqueueSubscription "B" 1 (passive "B" 2 false)
    (InsertNfqueueSubscription "A" 0 (passive "A" 1 false) (Startup 1000)).

(** What is known of the session stored under a tuple string. *)
Definition sessionCounters (key : string) (st : World) : option (Z * Z * Z) :=
  p ← sessionTable st !! key;
  s ← heap st !! p;
  Some (PacketCount s, ByteCount s, EventCount s).


(** One plugin, A, at priority 100. *)
Definition edgePriority : World :=
  InsertNfqueueSubscription "A" 100 (passive "A" 1 false) (Startup 1000).

(** Plugins A (priority 0, mark 1) and B (priority 100, mark 2), no release. *)
Definition lastPriority : World :=
  InsertNfqueueSubscription "B" 100 (passive "B" 2 false)
    (InsertNfqueueSubscription "A" 0 (passive "A" 1 false) (Startup 1000)).

(** One plugin, A, at priority 0, which releases the session at once. *)
Definition oneReleasing : World :=
  InsertNfqueueSubscription "A" 0 (passive "A" 1 true) (Startup 1000).

(** The state a first call leaves behind, [st] itself if it does not end. *)
Definition stateAfter (ctid : Z) (packet : Packet) (packetLength pmark : Z)
    (st : World) : World :=
  default st (snd <$> nfqueueCallback ctid packet packetLength pmark st).

(** The owners whose handler was started between two states. *)
Definition invokedBetween (st st' : World) : list string :=
  drop (length (callLog st)) (callLog st').

(** The record stored under a tuple string. *)
Definition sessionAt (key : string) (st : World) : option SessionEntry :=
  p ← sessionTable st !! key;
  heap st !! p.

(** The state after the SYN of a new flow with conntrack id 100 went through
    [twoPlugins]. *)
Definition afterSyn : World :=
  stateAfter 100 synPacket 60 0x10000000 twoPlugins.

(** A packet as the kernel hands it up: conntrack id, packet, length, mark. *)
Definition PacketEvent : Type := Z * Packet * Z * Z.

(** The packets of [events] handled one after the other; [None] once a call
    does not return, which ends the process. *)
Fixpoint runPackets (events : list PacketEvent) (st : World) : option World :=
  match events with
  | [] => Some st
  | (ctid, packet, packetLength, pmark) :: events =>
      match nfqueueCallback ctid packet packetLength pmark st with
      | Some (Returned _, st') => runPackets events st'
      | _ => None
      end
  end.

(** One plugin, S, at priority 0, which outlasts the guard timer. *)
Definition oneSleeper : World :=
  InsertNfqueueSubscription "S" 0 sleeper (Startup 1000).

(** Plugin A (priority 0) answers with a release in the name of B; plugin B
    (priority 1) is passive. *)
Definition crossRelease : World :=
  InsertNfqueueSubscription "B" 1 (passive "B" 2 false)
    (InsertNfqueueSubscription "A" 0 (passive "B" 1 true) (Startup 1000)).

(** A plugin in the manner of the stats plugin: it marks every packet and
    releases the session on the first packet from the server. *)
Definition statsLike : NfqueueHandlerFunction :=
  λ mess _ _,
    Completed {| Owner := "stats"; PacketMark := 1;
                 SessionRelease := negb (ClientToServer mess) |}.

Definition statsOnly : World :=
  InsertNfqueueSubscription "stats" 0 statsLike (Startup 1000).

(** The state after the SYN of flow 100 went through [statsOnly]. *)
Definition statsAfterSyn : World :=
  stateAfter 100 synPacket 60 0x10000000 statsOnly.

(** Owner A registered twice through nfqueue.go. *)
Definition duplicateOwner : World :=
  InsertNfqueueSubscription "A" 1 sleeper
    (InsertNfqueueSubscription "A" 0 sleeper (Startup 1000)).

(** A plugin whose mark tells the direction it was given. *)
Definition directionMarker : NfqueueHandlerFunction :=
  λ mess _ _,
    Completed {| Owner := "dir";
                 PacketMark := if ClientToServer mess then 1 else 2;
                 SessionRelease := false |}.

(** The state after the SYN of flow 100 went through a registry that holds
    [directionMarker] alone. *)
Definition directionAfterSyn : World :=
  stateAfter 100 synPacket 60 0x10000000
    (InsertNfqueueSubscription "dir" 0 directionMarker (Startup 1000)).

(** ** Further code of the repository

    The stats plugin is a subscriber of the dispatch; its helpers below are
    taken from its file.  [escape] is the quoting helper of the reports
    service and [Int2Ip] the address helper of the support package. *)

(** A result that asks for the release of [owner]. *)
Definition releaseOf (owner : string) (mark : Z) : NfqueueResult :=
  {| Owner := owner; PacketMark := mark; SessionRelease := true |}.

(** The hop estimate inside [logHopCount]: the distance of a TTL to the next
    of the common initial values 32, 64, 128 and 255, computed in [uint8]. *)
Definition hopCount (ttl : Z) : Z :=
  if ttl <=? 32 then uint8 (32 - ttl)
  else if (32 <? ttl) && (ttl <=? 64) then uint8 (64 - ttl)
  else if (64 <? ttl) && (ttl <=? 128) then uint8 (128 - ttl)
  else uint8 (255 - ttl).

(** The event [logHopCount] hands to the reports service:
    [CreateEvent(name, "sessions", 2, {session_id}, {name: hops})]. *)
Record ReportEvent : Type := {
  EventName : string;
  EventTable : string;
  EventSQLOp : Z;
  EventSessionID : Z;
  EventModified : string * Z
}.

(** [logHopCount] of the stats plugin: nothing for a message without IP
    layer; otherwise the hop count goes to the dictionary and to the reports
    service.  The session id is read through [mess.Session], so a message
    without session record ends in the nil dereference. *)
Definition logHopCount (ctid : Z) (mess : NfqueueMessage) (name : string)
    (st : World) : Outcome (option ReportEvent) * World :=
  let ttl :=
    match IP4Layer mess with
    | Some ip4 => Some (IP4TTL ip4)
    | None =>
        match IP6Layer mess with
        | Some ip6 => Some (IP6HopLimit ip6)
        | None => None
        end
    end in
  match ttl with
  | None => (Returned None, st)
  | Some ttl =>
      let hops := hopCount ttl in
      let st := AddSessionEntry ctid name (DictUint hops) st in
      match Session mess ≫= (λ p, heap st !! p) with
      | None =>
          (Fatal "invalid memory address or nil pointer dereference", st)
      | Some s =>
          (Returned (Some {| EventName := name; EventTable := "sessions";
                             EventSQLOp := 2; EventSessionID := SessionID s;
                             EventModified := (name, hops) |}), st)
      end
  end.

(** [calculateDifference] of the stats plugin: the difference in [uint64],
    and the value left behind in [*previous]. *)
Definition calculateDifference (previous current : Z) : Z * Z :=
  (uint64 (current - previous), current).

(** ** Quoting for SQL *)

(** The bytes [escape] looks for: carriage return, line feed, backslash,
    single quote, double quote and control-Z, and the letter Z. *)
Definition byteCR : Ascii.ascii := Ascii.ascii_of_nat 13.
Definition byteLF : Ascii.ascii := Ascii.ascii_of_nat 10.
Definition byteBackslash : Ascii.ascii := Ascii.ascii_of_nat 92.
Definition byteQuote : Ascii.ascii := Ascii.ascii_of_nat 39.
Definition byteDoubleQuote : Ascii.ascii := Ascii.ascii_of_nat 34.
Definition byteCtrlZ : Ascii.ascii := Ascii.ascii_of_nat 26.
Definition byteZ : Ascii.ascii := Ascii.ascii_of_nat 90.

(** The switch of [escape]: the byte that follows the backslash, for the
    bytes that are escaped. *)
Definition escapeByte (c : Ascii.ascii) : option Ascii.ascii :=
  if decide (c = byteCR) then Some byteCR
  else if decide (c = byteLF) then Some byteLF
  else if decide (c = byteBackslash) then Some byteBackslash
  else if decide (c = byteQuote) then Some byteQuote
  else if decide (c = byteDoubleQuote) then Some byteDoubleQuote
  else if decide (c = byteCtrlZ) then Some byteZ
  else None.

(** The loop of [escape]: byte by byte, the output grows by the byte itself
    or by a backslash and the escape byte. *)
Fixpoint escapeLoop (source : string) : string :=
  match source with
  | EmptyString => EmptyString
  | String c rest =>
      match escapeByte c with
      | Some e => String byteBackslash (String e (escapeLoop rest))
      | None => String c (escapeLoop rest)
      end
  end.

(** [escape]. *)
Definition escape (source : string) : string :=
  if (String.length source =? 0)%nat then EmptyString else escapeLoop source.

(** ** Addresses *)

(** [Int2Ip] of the support package: the four bytes of a [uint32], least
    significant first. *)
Definition Int2Ip (value : Z) : list Z :=
  [uint8 value; uint8 (Z.shiftr value 8); uint8 (Z.shiftr value 16);
   uint8 (Z.shiftr value 24)].

(** The number whose bytes, least significant first, are [ip]. *)
Fixpoint bytesToInt (ip : list Z) : Z :=
  match ip with
  | [] => 0
  | b :: ip => b + 256 * bytesToInt ip
  end.

(** The message [nfqueueCallback] builds for [replyPacket] once it has found
    the session of the flow (the first record) through the reverse key. *)
Definition replyMessage : NfqueueMessage :=
  {| Session := Some 0%nat;
     MsgTuple := {| Protocol := 6; ClientAddress := [93; 184; 216; 34];
                    ClientPort := 443; ServerAddress := [10; 0; 0; 1];
                    ServerPort := 50000 |};
     MsgPacket := replyPacket; Length := 60; ClientToServer := false;
     IP4Layer := LayerIPv4 replyPacket; IP6Layer := None;
     TCPLayer := LayerTCP replyPacket; UDPLayer := None; ICMPv4Layer := None;
     Payload := [] |}.

(** The record of the flow of [synPacket] in [afterSyn]. *)
Definition synSession : SessionEntry :=
  default (freshSession replyMessage 0 afterSyn) (sessionAt synKey afterSyn).

(** The state after the SYN of flow 100 went through [oneReleasing]: the
    session is there and nobody subscribes to it any more. *)
Definition releasedAfterSyn : World :=
  stateAfter 100 synPacket 60 0x10000000 oneReleasing.

(** The record of the flow of [synPacket] in [releasedAfterSyn]. *)
Definition releasedSession : SessionEntry :=
  default (freshSession replyMessage 0 releasedAfterSyn)
          (sessionAt synKey releasedAfterSyn).

(** * Properties *)

(** ** The call log and the releases commute *)

Lemma logCalls_app (l1 l2 : list string) (st : World) :
  logCalls (l1 ++ l2) st = logCalls l2 (logCalls l1 st).
Proof. unfold logCalls; simpl. by rewrite app_assoc. Qed.

Lemma ReleaseSession_logCalls (session : Ptr) (owner : string)
    (l : list string) (st : World) :
  ReleaseSession session owner (logCalls l st)
  = logCalls l (ReleaseSession session owner st).
Proof.
  unfold ReleaseSession; simpl.
  destruct (heap st !! session) as [s|]; [|done].
  repeat case_bool_decide; done.
Qed.

Lemma mergeResult_logCalls (session : Ptr) (pm : Z) (l : list string)
    (st : World) (r : NfqueueResult) :
  mergeResult session (pm, logCalls l st) r
  = ((mergeResult session (pm, st) r).1,
     logCalls l (mergeResult session (pm, st) r).2).
Proof.
  unfold mergeResult; simpl.
  destruct (SessionRelease r); [|done].
  by rewrite ReleaseSession_logCalls.
Qed.

Section Fanout.
Context (session : Ptr) (mess : NfqueueMessage) (ctid : Z) (newSession : bool).

Lemma foldl_mergeResult_logCalls (l : list string) (rs : list NfqueueResult)
    (pm : Z) (st : World) :
  foldl (mergeResult session) (pm, logCalls l st) rs
  = ((foldl (mergeResult session) (pm, st) rs).1,
     logCalls l (foldl (mergeResult session) (pm, st) rs).2).
Proof.
  revert pm st; induction rs as [|r rs IH]; intros pm st; [done|].
  simpl. rewrite mergeResult_logCalls.
  destruct (mergeResult session (pm, st) r) as [pm1 st1] eqn:E; simpl.
  by rewrite IH.
Qed.

(** The collecting loop of one layer is the subscribers handled one by one. *)
Lemma merge_layer (layer : list (string * SubscriptionHolder)) (pm : Z) (st : World) :
  foldl (mergeResult session) (pm, logCalls layer.*1 st)
        (map (guardedCall mess ctid newSession) layer)
  = foldl (step session mess ctid newSession) (pm, st) layer.
Proof.
  revert pm st; induction layer as [|sub layer IH]; intros pm st.
  - simpl. unfold logCalls; simpl. rewrite app_nil_r. by destruct st.
  - rewrite fmap_cons. cbn [map foldl].
    change (sub.1 :: layer.*1) with ([sub.1] ++ layer.*1).
    rewrite (logCalls_app [sub.1] layer.*1 st).
    rewrite mergeResult_logCalls. unfold step at 2. cbn [fst snd].
    destruct (mergeResult session (pm, logCalls [sub.1] st) _) as [pm1 st1].
    apply IH.
Qed.

End Fanout.

(** ** Layers and bands of priorities *)

Lemma filter_same_length {A} (P : A → Prop) `{!∀ x, Decision (P x)} (l : list A) :
  length (filter P l) = length l → filter P l = l.
Proof.
  induction l as [|x l IH]; [done|].
  rewrite filter_cons. case_decide; simpl; intros Hlen.
  - f_equal. apply IH. lia.
  - pose proof (length_filter P l). lia.
Qed.

Lemma filter_none {A} (P : A → Prop) `{!∀ x, Decision (P x)} (l : list A) :
  (∀ x, ¬ P x) → filter P l = [].
Proof.
  intros HP. induction l as [|x l IH]; [done|].
  rewrite filter_cons. case_decide; [by destruct (HP x)|done].
Qed.

Lemma filter_all {A} (P : A → Prop) `{!∀ x, Decision (P x)} (l : list A) :
  Forall P l → filter P l = l.
Proof.
  induction 1 as [|x l Hx _ IH]; [done|].
  rewrite filter_cons. case_decide; [by f_equal|done].
Qed.

Lemma filter_all_inv {A} (P : A → Prop) `{!∀ x, Decision (P x)} (l : list A) :
  filter P l = l → Forall P l.
Proof.
  intros Heq. apply Forall_forall. intros x Hx.
  rewrite <- Heq in Hx. by apply list_elem_of_filter in Hx as [? _].
Qed.

Section Layers.
Context (sublist : gmap string SubscriptionHolder).

Lemma priorityBand_app (lo mid hi : Z) :
  lo ≤ mid ≤ hi →
  priorityBand sublist lo hi
  ≡ₚ priorityBand sublist lo mid ++ priorityBand sublist mid hi.
Proof.
  intros Hm. unfold priorityBand.
  induction (map_to_list sublist) as [|x l IH]; [done|].
  rewrite !filter_cons.
  repeat case_decide; try lia; simpl; rewrite ?IH; try done.
  apply Permutation_middle.
Qed.

Lemma priorityBand_single (p : Z) :
  priorityBand sublist p (p + 1) = layerOf sublist p.
Proof.
  unfold priorityBand, layerOf. apply list_filter_iff. intros x. lia.
Qed.

Lemma priorityBand_empty (p : Z) : priorityBand sublist p p = [].
Proof. unfold priorityBand. apply filter_none. intros x. lia. Qed.

Lemma layersFrom_band (n : nat) (p : Z) :
  layersFrom sublist p n ≡ₚ priorityBand sublist p (p + Z.of_nat n).
Proof.
  revert p; induction n as [|n IH]; intros p.
  - simpl. by rewrite Z.add_0_r, priorityBand_empty.
  - cbn [layersFrom]. rewrite (priorityBand_app p (p + 1)) by lia.
    rewrite priorityBand_single, IH.
    by replace (p + 1 + Z.of_nat n) with (p + Z.of_nat (S n)) by lia.
Qed.

Lemma priorityBand_length_succ (p : Z) :
  0 ≤ p →
  length (priorityBand sublist 0 (p + 1))
  = (length (priorityBand sublist 0 p) + length (layerOf sublist p))%nat.
Proof.
  intros Hp. rewrite (priorityBand_app 0 p (p + 1)) by lia.
  by rewrite length_app, priorityBand_single.
Qed.

Lemma priorityBand_full (lo hi : Z) :
  length (priorityBand sublist lo hi) = size sublist →
  priorityBand sublist lo hi = map_to_list sublist.
Proof.
  intros Hlen. apply filter_same_length.
  by rewrite length_map_to_list.
Qed.

Lemma priorityBand_full_widen (lo hi lo' hi' : Z) :
  lo' ≤ lo → hi ≤ hi' →
  priorityBand sublist lo hi = map_to_list sublist →
  priorityBand sublist lo' hi' = map_to_list sublist.
Proof.
  intros Hlo Hhi Hfull. unfold priorityBand in *.
  apply filter_all_inv in Hfull. apply filter_all.
  eapply Forall_impl; [exact Hfull|]. intros x Hx. simpl in *. lia.
Qed.

End Layers.

(** ** The priority loop, layer by layer *)

Section Loop.
Context (sublist : gmap string SubscriptionHolder) (session : Ptr)
        (mess : NfqueueMessage) (ctid : Z) (newSession : bool).

Lemma priorityLoop_unfold (fuel : nat) (priority : Z) (subcount : nat)
    (pmark : Z) (st : World) :
  priorityLoop (S fuel) sublist (size sublist) session mess ctid newSession
    priority subcount pmark st
  = if bool_decide (subcount = size sublist)
    then Some (Returned (NfAccept, pmark), st)
    else
      let merged :=
        foldl (step session mess ctid newSession) (pmark, st)
              (layerOf sublist priority) in
      if bool_decide (priority + 1 > 100)
      then Some (Fatal "Constraint failed - infinite loop detected", merged.2)
      else priorityLoop fuel sublist (size sublist) session mess ctid newSession
             (priority + 1) (subcount + length (layerOf sublist priority))%nat
             merged.1 merged.2.
Proof. cbn [priorityLoop]. by rewrite merge_layer. Qed.

(** From priority [priority] on, the loop handles the layers of some [n]
    consecutive priorities and then either returns, every subscriber having
    been called, or panics, the counter having passed 100. *)
Lemma priorityLoop_run (fuel : nat) (priority : Z) (subcount : nat)
    (pmark : Z) (st : World) :
  0 ≤ priority ≤ 100 →
  (Z.to_nat (101 - priority) ≤ fuel)%nat →
  subcount = length (priorityBand sublist 0 priority) →
  ∃ (n : nat) (out : Outcome (Z * Z)),
    let res := foldl (step session mess ctid newSession) (pmark, st)
                     (layersFrom sublist priority n) in
    priorityLoop fuel sublist (size sublist) session mess ctid newSession
      priority subcount pmark st = Some (out, res.2)
    ∧ ((out = Returned (NfAccept, res.1)
        ∧ priority + Z.of_nat n ≤ 100
        ∧ priorityBand sublist 0 (priority + Z.of_nat n) = map_to_list sublist)
       ∨ (out = Fatal "Constraint failed - infinite loop detected"
          ∧ priority + Z.of_nat n = 101
          ∧ length (priorityBand sublist 0 100) ≠ size sublist)).
Proof.
  revert priority subcount pmark st.
  induction fuel as [|fuel IH]; intros priority subcount pmark st Hp Hfuel Hcount.
  { lia. }
  rewrite priorityLoop_unfold.
  case_bool_decide as Hdone.
  - exists 0%nat, (Returned (NfAccept, pmark)). simpl.
    split; [done|]. left. split; [done|]. split; [lia|].
    rewrite Z.add_0_r. apply priorityBand_full. congruence.
  - cbn zeta.
    destruct (foldl (step session mess ctid newSession) (pmark, st)
                (layerOf sublist priority)) as [pm1 st1] eqn:Hlayer.
    cbn [fst snd].
    case_bool_decide as Hover.
    + exists 1%nat, (Fatal "Constraint failed - infinite loop detected").
      cbn [layersFrom]. rewrite app_nil_r, Hlayer. cbn [fst snd].
      split; [done|]. right. split; [done|]. split; [lia|].
      replace 100 with priority by lia. congruence.
    + destruct (IH (priority + 1)
                  (subcount + length (layerOf sublist priority))%nat pm1 st1)
        as (n & out & Hrun & Hout).
      { lia. }
      { lia. }
      { rewrite priorityBand_length_succ by lia. lia. }
      exists (S n), out. cbn [layersFrom]. rewrite foldl_app, Hlayer.
      cbn zeta in Hrun.
      replace (priority + Z.of_nat (S n)) with (priority + 1 + Z.of_nat n) by lia.
      split; [exact Hrun|]. exact Hout.
Qed.

End Loop.

(** ** What the fan-out leaves alone *)

Lemma setSubscriptions_id (s : SessionEntry) :
  setSubscriptions (subscriptions s) s = s.
Proof. by destruct s. Qed.

Lemma heapShrinks_refl (session : Ptr) (st : World) : heapShrinks session st st.
Proof.
  intros p. destruct (heap st !! p) as [s|] eqn:E; [|done].
  exists (subscriptions s). by rewrite setSubscriptions_id.
Qed.

Lemma heapShrinks_trans (session : Ptr) (st1 st2 st3 : World) :
  heapShrinks session st1 st2 → heapShrinks session st2 st3 →
  heapShrinks session st1 st3.
Proof.
  intros H12 H23 p. specialize (H12 p). specialize (H23 p).
  destruct (heap st1 !! p) as [s|].
  - destruct H12 as (subs1 & E2 & Hsub1 & Hne1). rewrite E2 in H23.
    destruct H23 as (subs2 & E3 & Hsub2 & Hne2). simpl in *.
    exists subs2. split; [done|]. split; [by etrans|].
    intros Hp. rewrite Hne2, Hne1; done.
  - by rewrite H12 in H23.
Qed.

Lemma dictGrows_refl (st : World) : dictGrows st st.
Proof. intros k. by left. Qed.

Lemma dictGrows_trans (st1 st2 st3 : World) :
  dictGrows st1 st2 → dictGrows st2 st3 → dictGrows st1 st3.
Proof.
  intros H12 H23 k. destruct (H23 k) as [E|E]; [|by right].
  rewrite E. apply H12.
Qed.

Lemma fanoutFrame_refl (session : Ptr) (st : World) : fanoutFrame session st st.
Proof.
  unfold fanoutFrame. split_and!; auto using heapShrinks_refl, dictGrows_refl.
Qed.

Lemma fanoutFrame_trans (session : Ptr) (st1 st2 st3 : World) :
  fanoutFrame session st1 st2 → fanoutFrame session st2 st3 →
  fanoutFrame session st1 st3.
Proof.
  intros (A1 & A2 & A3 & A4 & A5 & A6 & A7) (B1 & B2 & B3 & B4 & B5 & B6 & B7).
  unfold fanoutFrame. split_and!; try congruence.
  - by eapply heapShrinks_trans.
  - by eapply dictGrows_trans.
Qed.

Lemma logCalls_frame (session : Ptr) (l : list string) (st : World) :
  fanoutFrame session st (logCalls l st).
Proof.
  unfold fanoutFrame. split_and!; try done.
  - apply (heapShrinks_refl session st).
  - apply (dictGrows_refl st).
Qed.

Lemma ReleaseSession_frame (session : Ptr) (owner : string) (st : World) :
  fanoutFrame session st (ReleaseSession session owner st).
Proof.
  unfold ReleaseSession.
  destruct (heap st !! session) as [s|] eqn:Hs; [|apply fanoutFrame_refl].
  case_bool_decide; [apply fanoutFrame_refl|].
  assert (Hheap : heapShrinks session st
            (setHeap (<[session:=setSubscriptions (delete owner (subscriptions s)) s]>
                        (heap st)) st)).
  { intros p. simpl. destruct (decide (p = session)) as [->|Hne].
    - rewrite Hs, lookup_insert_eq. eexists. split; [done|].
      split; [apply delete_subseteq|done].
    - rewrite lookup_insert_ne by done.
      destruct (heap st !! p) as [s'|]; [|done].
      exists (subscriptions s'). by rewrite setSubscriptions_id. }
  case_bool_decide.
  - unfold fanoutFrame. split_and!; try done. intros k. simpl.
    destruct (decide (k = (ConntrackID s, "bypass_packetd"))) as [->|Hk].
    + right. by rewrite lookup_insert_eq.
    + left. by rewrite lookup_insert_ne.
  - unfold fanoutFrame. split_and!; try done. intros k. by left.
Qed.

Section FanoutFacts.
Context (session : Ptr) (mess : NfqueueMessage) (ctid : Z) (newSession : bool).

Lemma step_frame (acc : Z * World) (sub : string * SubscriptionHolder) :
  fanoutFrame session acc.2 (step session mess ctid newSession acc sub).2.
Proof.
  unfold step, mergeResult. cbn [fst snd].
  destruct (SessionRelease _).
  - eapply fanoutFrame_trans; [apply logCalls_frame|apply ReleaseSession_frame].
  - apply logCalls_frame.
Qed.

Lemma foldl_step_frame (run : list (string * SubscriptionHolder)) (acc : Z * World) :
  fanoutFrame session acc.2 (foldl (step session mess ctid newSession) acc run).2.
Proof.
  revert acc; induction run as [|sub run IH]; intros acc.
  - apply fanoutFrame_refl.
  - simpl. eapply fanoutFrame_trans; [apply step_frame|apply IH].
Qed.

(** The mark that comes out is the mark that went in, OR the marks returned. *)
Lemma foldl_step_mark (run : list (string * SubscriptionHolder)) (acc : Z * World) :
  (foldl (step session mess ctid newSession) acc run).1 = Z.lor acc.1 (orMarks mess ctid newSession run).
Proof.
  revert acc; induction run as [|sub run IH]; intros acc.
  - simpl. by rewrite Z.lor_0_r.
  - simpl. rewrite IH. unfold step, mergeResult. cbn [fst snd].
    by rewrite Z.lor_assoc.
Qed.

Lemma orMarks_perm (l1 l2 : list (string * SubscriptionHolder)) :
  l1 ≡ₚ l2 → orMarks mess ctid newSession l1 = orMarks mess ctid newSession l2.
Proof.
  induction 1 as [|x l1 l2 _ IH|x y l|l1 l2 l3 _ IH1 _ IH2]; simpl.
  - done.
  - by rewrite IH.
  - rewrite !Z.lor_assoc. f_equal. apply Z.lor_comm.
  - congruence.
Qed.

(** The call log gains the owners of the run, in order. *)
Lemma ReleaseSession_callLog (owner : string) (st : World) :
  callLog (ReleaseSession session owner st) = callLog st.
Proof.
  unfold ReleaseSession. destruct (heap st !! session); [|done].
  repeat case_bool_decide; done.
Qed.

Lemma step_callLog (acc : Z * World) (sub : string * SubscriptionHolder) :
  callLog (step session mess ctid newSession acc sub).2 = callLog acc.2 ++ [sub.1].
Proof.
  unfold step, mergeResult. cbn [fst snd].
  destruct (SessionRelease _); [rewrite ReleaseSession_callLog|]; done.
Qed.

Lemma foldl_step_callLog (run : list (string * SubscriptionHolder)) (acc : Z * World) :
  callLog (foldl (step session mess ctid newSession) acc run).2
  = callLog acc.2 ++ run.*1.
Proof.
  revert acc; induction run as [|sub run IH]; intros acc.
  - simpl. by rewrite app_nil_r.
  - cbn [foldl]. rewrite IH, step_callLog, <- app_assoc. done.
Qed.

End FanoutFacts.

(** ** Releases, the bypass entry, and the subscriptions *)

Lemma subscribed_heap (session : Ptr) (st : World) (s : SessionEntry) :
  heap st !! session = Some s → subscribed session st = subscriptions s.
Proof. intros Hs. unfold subscribed. by rewrite Hs. Qed.

Lemma subscribed_frame (session p : Ptr) (st st' : World) :
  fanoutFrame session st st' → subscribed p st' ⊆ subscribed p st.
Proof.
  intros (_ & _ & _ & _ & _ & Hheap & _). specialize (Hheap p).
  unfold subscribed. destruct (heap st !! p) as [s|].
  - destruct Hheap as (subs & -> & Hsub & _). done.
  - by rewrite Hheap.
Qed.

Lemma ReleaseSession_bypassInv (session : Ptr) (owner : string) (st : World) :
  bypassInv session st → bypassInv session (ReleaseSession session owner st).
Proof.
  intros Hinv. unfold ReleaseSession.
  destruct (heap st !! session) as [s|] eqn:Hs; [|done].
  case_bool_decide as Hlen0; [done|].
  case_bool_decide as Hlen.
  - intros s' Hs' _. simpl in Hs'. rewrite lookup_insert_eq in Hs'.
    injection Hs' as <-. unfold bypassSet. simpl. by rewrite lookup_insert_eq.
  - intros s' Hs' Hempty. simpl in Hs'. rewrite lookup_insert_eq in Hs'.
    injection Hs' as <-. simpl in Hempty. rewrite Hempty in Hlen.
    by rewrite map_size_empty in Hlen.
Qed.

(** The release that empties the map writes the bypass entry. *)
Lemma ReleaseSession_sets_bypass (session : Ptr) (owner : string) (st : World)
    (s : SessionEntry) :
  heap st !! session = Some s →
  subscriptions s ≠ ∅ →
  delete owner (subscriptions s) = ∅ →
  bypassSet (ConntrackID s) (ReleaseSession session owner st).
Proof.
  intros Hs Hne Hdel. unfold ReleaseSession. rewrite Hs.
  rewrite bool_decide_eq_false_2 by by rewrite map_size_empty_iff.
  rewrite bool_decide_eq_true_2 by by rewrite map_size_empty_iff.
  unfold bypassSet. simpl. by rewrite lookup_insert_eq.
Qed.

Lemma ReleaseSession_removes (session : Ptr) (owner : string) (st : World) :
  subscribed session (ReleaseSession session owner st) !! owner = None.
Proof.
  unfold ReleaseSession, subscribed.
  destruct (heap st !! session) as [s|] eqn:Hs; [|by rewrite Hs].
  case_bool_decide as Hlen0.
  - rewrite Hs. simpl. apply map_size_empty_iff in Hlen0. by rewrite Hlen0.
  - case_bool_decide; simpl; rewrite lookup_insert_eq; simpl;
      apply lookup_delete_eq.
Qed.

Section ReleaseFacts.
Context (session : Ptr) (mess : NfqueueMessage) (ctid : Z) (newSession : bool).

Lemma step_bypassInv (acc : Z * World) (sub : string * SubscriptionHolder) :
  bypassInv session acc.2 →
  bypassInv session (step session mess ctid newSession acc sub).2.
Proof.
  intros Hinv. unfold step, mergeResult. cbn [fst snd].
  destruct (SessionRelease _); [apply ReleaseSession_bypassInv|]; exact Hinv.
Qed.

Lemma foldl_step_bypassInv (run : list (string * SubscriptionHolder))
    (acc : Z * World) :
  bypassInv session acc.2 →
  bypassInv session (foldl (step session mess ctid newSession) acc run).2.
Proof.
  revert acc; induction run as [|sub run IH]; intros acc Hinv; [done|].
  cbn [foldl]. by apply IH, step_bypassInv.
Qed.

(** An owner named by a releasing result is no longer subscribed afterwards. *)
Lemma foldl_step_released (run : list (string * SubscriptionHolder))
    (acc : Z * World) (sub : string * SubscriptionHolder) :
  sub ∈ run →
  SessionRelease (guardedCall mess ctid newSession sub) = true →
  subscribed session (foldl (step session mess ctid newSession) acc run).2
    !! Owner (guardedCall mess ctid newSession sub) = None.
Proof.
  revert acc; induction run as [|x run IH]; intros acc Hin Hrel.
  { by apply elem_of_nil in Hin. }
  cbn [foldl]. apply elem_of_cons in Hin as [->|Hin]; [|by apply IH].
  eapply lookup_weaken_None; [|apply (subscribed_frame session), foldl_step_frame].
  unfold step, mergeResult. cbn [fst snd]. rewrite Hrel.
  apply ReleaseSession_removes.
Qed.

(** Without a releasing result the run only extends the call log. *)
Lemma foldl_step_no_release (run : list (string * SubscriptionHolder))
    (acc : Z * World) :
  Forall (λ sub, SessionRelease (guardedCall mess ctid newSession sub) = false) run →
  (foldl (step session mess ctid newSession) acc run).2 = logCalls run.*1 acc.2.
Proof.
  intros Hall. revert acc.
  induction Hall as [|sub run Hsub _ IH]; intros acc.
  - simpl. unfold logCalls. simpl. rewrite app_nil_r. by destruct (acc.2).
  - cbn [foldl]. etrans; [apply IH|].
    unfold step, mergeResult. cbn [fst snd]. rewrite Hsub.
    by rewrite <- logCalls_app.
Qed.

(** [callSubscribers] on a session with the mirror [sublist]. *)
Lemma callSubscribers_spec (pmark : Z) (st : World)
    (sublist : gmap string SubscriptionHolder) :
  MirrorNfqueueSubscriptions session st = Some sublist →
  ∃ run, run ≡ₚ priorityBand sublist 0 101
    ∧ callSubscribers ctid session mess pmark newSession st
      = Some (fanoutOutcome mess ctid newSession pmark sublist,
              (foldl (step session mess ctid newSession) (pmark, st) run).2).
Proof.
  intros Hmirror. unfold callSubscribers. rewrite Hmirror.
  destruct (priorityLoop_run sublist session mess ctid newSession 101 0 0%nat pmark st)
    as (n & out & Hrun & Hout).
  { lia. }
  { lia. }
  { by rewrite priorityBand_empty. }
  cbn zeta in Hrun. rewrite Z.add_0_l in Hout.
  exists (layersFrom sublist 0 n). unfold fanoutOutcome.
  destruct Hout as [(-> & Hn & Hfull)|(-> & Hn & Hlen)].
  - rewrite bool_decide_eq_true_2.
    2:{ rewrite (priorityBand_full_widen sublist 0 (Z.of_nat n) 0 100);
          [apply length_map_to_list|lia|lia|done]. }
    split.
    + rewrite layersFrom_band, Z.add_0_l.
      rewrite Hfull. symmetry.
      by rewrite (priorityBand_full_widen sublist 0 (Z.of_nat n) 0 101) by (lia || done).
    + rewrite Hrun, foldl_step_mark. cbn [fst].
      do 5 f_equal. apply orMarks_perm.
      by rewrite layersFrom_band, Z.add_0_l, Hfull.
  - rewrite bool_decide_eq_false_2 by done.
    split; [|done]. rewrite layersFrom_band. by rewrite Hn.
Qed.

End ReleaseFacts.

(** ** Session creation and the way to the fan-out *)

Lemma createSessionEntry_eq (mess : NfqueueMessage) (ctid : Z) (st : World) :
  createSessionEntry mess ctid st
  = (fresh (dom (heap st)),
     {| nfqueueList := nfqueueList st;
        sessionTable :=
          <[TupleString (MsgTuple mess) := fresh (dom (heap st))]> (sessionTable st);
        conntrackIndex := <[ctid := fresh (dom (heap st))]> (conntrackIndex st);
        heap := <[fresh (dom (heap st)) := freshSession mess ctid st]> (heap st);
        sessionIndex := uint64 (sessionIndex st + 1);
        dictTable := dictTable st; wallClock := wallClock st;
        callLog := callLog st |}).
Proof.
  unfold createSessionEntry, nextSessionID, AttachNfqueueSubscriptions,
    insertSessionEntry. simpl.
  rewrite alter_insert_eq, lookup_insert_eq. simpl. done.
Qed.

Lemma fresh_heap_None (st : World) : heap st !! fresh (dom (heap st)) = None.
Proof. apply not_elem_of_dom, is_fresh. Qed.

Lemma nfqueueCallback_resolve (ctid : Z) (packet : Packet) (packetLength : Z)
    (pmark : Z) (st : World) :
  nfqueueCallback ctid packet packetLength pmark st
  = match resolve ctid packet packetLength pmark st with
    | NotIP => Some (Returned (NfAccept, pmark), st)
    | MidSession st' => Some (Returned (NfAccept, pmark), st')
    | NilSession =>
        Some (Fatal "invalid memory address or nil pointer dereference", st)
    | Dispatch session mess st' =>
        accountAndCall ctid session mess pmark (newSessionBit pmark) st'
    end.
Proof.
  unfold nfqueueCallback, resolve, newSessionBit.
  destruct (parseMessage packet packetLength) as [mess|]; [|done].
  destruct (lookupSessionEntry mess ctid st) as [[found|] clientToServer].
  - destruct (heap st !! found) as [s|]; [|done].
    destruct (_ && _); [|done].
    by destruct (createSessionEntry _ _ _).
  - destruct (negb (negb _)); [done|].
    by destruct (createSessionEntry _ _ _).
Qed.

Lemma account_heap (session : Ptr) (mess : NfqueueMessage) (st : World)
    (s : SessionEntry) :
  heap st !! session = Some s →
  heap (account session mess st) !! session
  = Some (accountPacket (wallClock st) (Length mess) s).
Proof. intros Hs. unfold account. simpl. by rewrite lookup_alter_eq, Hs. Qed.

Lemma account_mirror (session : Ptr) (mess : NfqueueMessage) (st : World) :
  MirrorNfqueueSubscriptions session (account session mess st)
  = MirrorNfqueueSubscriptions session st.
Proof.
  unfold MirrorNfqueueSubscriptions, account. simpl.
  rewrite lookup_alter_eq. by destruct (heap st !! session).
Qed.

(** The session a packet is dispatched on has a record. *)
Lemma resolve_Dispatch_heap (ctid : Z) (packet : Packet) (packetLength : Z)
    (pmark : Z) (st st1 : World) (session : Ptr) (mess : NfqueueMessage) :
  resolve ctid packet packetLength pmark st = Dispatch session mess st1 →
  is_Some (heap st1 !! session).
Proof.
  unfold resolve.
  destruct (parseMessage packet packetLength) as [mess0|]; [|done].
  destruct (lookupSessionEntry mess0 ctid st) as [[found|] clientToServer].
  - destruct (heap st !! found) as [s|] eqn:Hs; [|done].
    destruct (_ && _).
    + rewrite createSessionEntry_eq. intros [= <- <- <-]. simpl.
      rewrite lookup_insert_eq. eauto.
    + intros [= <- <- <-]. eauto.
  - destruct (negb _); [done|].
    rewrite createSessionEntry_eq. intros [= <- <- <-]. simpl.
    rewrite lookup_insert_eq. eauto.
Qed.

(** [accountAndCall] on a session with a record. *)
Lemma accountAndCall_spec (ctid : Z) (session : Ptr) (mess : NfqueueMessage)
    (pmark : Z) (newSession : bool) (st : World) (s : SessionEntry) :
  heap st !! session = Some s →
  ∃ run, run ≡ₚ priorityBand (subscriptions s) 0 101
    ∧ accountAndCall ctid session mess pmark newSession st
      = Some (fanoutOutcome mess ctid newSession pmark (subscriptions s),
              (foldl (step session mess ctid newSession)
                     (pmark, account session mess st) run).2).
Proof.
  intros Hs. unfold accountAndCall.
  apply callSubscribers_spec.
  rewrite account_mirror. unfold MirrorNfqueueSubscriptions. by rewrite Hs.
Qed.

(** The loop ends by itself exactly when every priority lies in [0, 99]. *)
Lemma priorityBand_all (sublist : gmap string SubscriptionHolder) (lo hi : Z) :
  priorityBand sublist lo (hi + 1) = map_to_list sublist ↔ prioritiesIn lo hi sublist.
Proof.
  unfold priorityBand, prioritiesIn. split.
  - intros Hall%filter_all_inv owner holder Hlook.
    rewrite Forall_forall in Hall.
    specialize (Hall (owner, holder)). simpl in Hall.
    rewrite elem_of_map_to_list in Hall. specialize (Hall Hlook). lia.
  - intros Hall. apply filter_all, Forall_forall. intros [owner holder] Hin.
    apply elem_of_map_to_list in Hin. specialize (Hall _ _ Hin). simpl. lia.
Qed.

Lemma fanoutOutcome_Returned (mess : NfqueueMessage) (ctid : Z) (newSession : bool)
    (pmark : Z) (sublist : gmap string SubscriptionHolder) :
  prioritiesIn 0 99 sublist →
  fanoutOutcome mess ctid newSession pmark sublist
  = Returned (NfAccept,
              Z.lor pmark (orMarks mess ctid newSession (map_to_list sublist))).
Proof.
  intros Hall. unfold fanoutOutcome.
  apply (priorityBand_all sublist 0 99) in Hall.
  change (99 + 1) with 100 in Hall.
  rewrite bool_decide_eq_true_2; [done|].
  by rewrite Hall, length_map_to_list.
Qed.

Lemma fanoutOutcome_cases (mess : NfqueueMessage) (ctid : Z) (newSession : bool)
    (pmark : Z) (sublist : gmap string SubscriptionHolder) :
  fanoutOutcome mess ctid newSession pmark sublist
  = Returned (NfAccept,
              Z.lor pmark (orMarks mess ctid newSession (map_to_list sublist)))
  ∨ (fanoutOutcome mess ctid newSession pmark sublist
     = Fatal "Constraint failed - infinite loop detected"
     ∧ ¬ prioritiesIn 0 99 sublist).
Proof.
  unfold fanoutOutcome. case_bool_decide as Hlen; [by left|right].
  split; [done|]. intros Hall. apply Hlen.
  apply (priorityBand_all sublist 0 99) in Hall.
  change (99 + 1) with 100 in Hall.
  by rewrite Hall, length_map_to_list.
Qed.

(** ** The order in which the results arrive does not matter *)

Lemma ReleaseSession_Some (session : Ptr) (owner : string) (st : World)
    (s : SessionEntry) :
  heap st !! session = Some s →
  ReleaseSession session owner st
  = if decide (subscriptions s = ∅) then st
    else
      let st' := setHeap (<[session := setSubscriptions
                                         (delete owner (subscriptions s)) s]>
                            (heap st)) st in
      if decide (delete owner (subscriptions s) = ∅)
      then AddSessionEntry (ConntrackID s) "bypass_packetd" (DictBool true) st'
      else st'.
Proof.
  intros Hs. unfold ReleaseSession. rewrite Hs.
  destruct (decide (subscriptions s = ∅)) as [Hempty|Hne].
  - rewrite bool_decide_eq_true_2; [done|]. by rewrite Hempty, map_size_empty.
  - rewrite bool_decide_eq_false_2 by by rewrite map_size_empty_iff.
    cbn zeta.
    destruct (decide (delete owner (subscriptions s) = ∅)) as [Hdel|Hdel].
    + rewrite bool_decide_eq_true_2; [done|]. by rewrite Hdel, map_size_empty.
    + by rewrite bool_decide_eq_false_2 by by rewrite map_size_empty_iff.
Qed.

Lemma ReleaseSession_comm (session : Ptr) (a b : string) (st : World) :
  ReleaseSession session a (ReleaseSession session b st)
  = ReleaseSession session b (ReleaseSession session a st).
Proof.
  destruct (heap st !! session) as [s|] eqn:Hs.
  2:{ unfold ReleaseSession. rewrite Hs. by rewrite Hs. }
  rewrite (ReleaseSession_Some session b st s Hs).
  rewrite (ReleaseSession_Some session a st s Hs).
  destruct (decide (subscriptions s = ∅)) as [Hempty|Hne].
  { rewrite !(ReleaseSession_Some _ _ st s Hs).
    by rewrite !decide_True by done. }
  cbn zeta.
  pose proof (delete_delete (subscriptions s) a b) as Hcomm.
  destruct (decide (delete b (subscriptions s) = ∅)) as [Hb|Hb];
    destruct (decide (delete a (subscriptions s) = ∅)) as [Ha|Ha].
  all: erewrite !ReleaseSession_Some
         by (cbn [heap AddSessionEntry setDictTable setHeap];
             apply lookup_insert_eq).
  all: cbn [subscriptions setSubscriptions ConntrackID].
  all: rewrite ?Ha, ?Hb in *.
  all: repeat case_decide; try done.
  all: try (rewrite ?Hcomm, ?Ha, ?Hb, ?delete_empty in *; done).
  all: unfold AddSessionEntry, setDictTable, setHeap;
       cbn [heap dictTable nfqueueList sessionTable conntrackIndex sessionIndex
            wallClock callLog setSubscriptions subscriptions];
       rewrite ?insert_insert_eq; try done.
  all: pose proof (delete_delete (subscriptions s) a b) as Hswap.
  all: unfold setSubscriptions; cbn [SessionID PacketCount ByteCount CreationTime
         LastActivityTime ClientSideTuple ConntrackConfirmed ConntrackID
         EventCount attachments].
  all: congruence.
Qed.

Lemma mergeResult_comm (session : Ptr) (acc : Z * World) (r1 r2 : NfqueueResult) :
  mergeResult session (mergeResult session acc r1) r2
  = mergeResult session (mergeResult session acc r2) r1.
Proof.
  unfold mergeResult. cbn [fst snd]. f_equal.
  - rewrite <- !Z.lor_assoc. f_equal. apply Z.lor_comm.
  - destruct (SessionRelease r1), (SessionRelease r2); try done.
    apply ReleaseSession_comm.
Qed.

(** Whatever the order in which the results of a layer are read from the
    channel, the collecting loop ends with the same mark and the same state. *)
Lemma foldl_mergeResult_perm (session : Ptr) (rs1 rs2 : list NfqueueResult)
    (acc : Z * World) :
  rs1 ≡ₚ rs2 →
  foldl (mergeResult session) acc rs1 = foldl (mergeResult session) acc rs2.
Proof.
  intros Hperm. revert acc.
  induction Hperm as [|r rs1 rs2 _ IH|r1 r2 rs|rs1 rs2 rs3 _ IH1 _ IH2];
    intros acc; cbn [foldl].
  - done.
  - apply IH.
  - by rewrite mergeResult_comm.
  - by rewrite IH1.
Qed.

(** * The claims *)

(** C1. A packet that reaches the fan-out on a session whose subscriptions
    are A at priority 0 and B at priority 100, both inside [0,100]: both
    handlers are started and their results collected, and the mark the claim
    promises would be 0x10000000 | 1 | 2; but the turn that has just served
    priority 100 raises the priority to 101 and panics, so the call hands
    back no verdict and no mark.  The defect is the one of C3. *)
Theorem nfqueueCallback_priority_100_no_verdict :
  ∃ session mess st,
    resolve 100 synPacket 60 0x10000000 lastPriority = Dispatch session mess st
    ∧ prioritiesIn 0 100 (subscribed session st)
    ∧ Z.lor 0x10000000
        (orMarks mess 100 true (map_to_list (subscribed session st)))
      = 0x10000003
    ∧ (λ r, (r.1, invokedBetween lastPriority r.2))
        <$> nfqueueCallback 100 synPacket 60 0x10000000 lastPriority
      = Some (Fatal "Constraint failed - infinite loop detected", ["A"; "B"]).
Proof.
  eexists _, _, _. split; [vm_compute; reflexivity|]. split.
  - apply (priorityBand_all _ 0 100). vm_compute. reflexivity.
  - split; vm_compute; reflexivity.
Qed.

(** ** The ways through the session lookup *)

Lemma parseMessage_IP (packet : Packet) (packetLength : Z) :
  is_Some (parseMessage packet packetLength)
  ↔ is_Some (LayerIPv4 packet) ∨ is_Some (LayerIPv6 packet).
Proof.
  unfold parseMessage.
  destruct (LayerIPv4 packet), (LayerIPv6 packet); simpl;
    split; intros H; eauto; try (by destruct H as [[? [=]]|[? [=]]]);
    by destruct H as [? [=]].
Qed.

Lemma lookupSessionEntry_miss (mess : NfqueueMessage) (ctid : Z) (st : World) :
  sessionTable st !! TupleString (MsgTuple mess) = None →
  sessionTable st !! TupleStringReverse (MsgTuple mess) = None →
  lookupSessionEntry mess ctid st = (None, true).
Proof.
  intros Hf Hr. unfold lookupSessionEntry, findSessionEntry. by rewrite Hf, Hr.
Qed.

Lemma resolve_miss_mid_session (ctid : Z) (packet : Packet) (packetLength pmark : Z)
    (st : World) (mess : NfqueueMessage) :
  parseMessage packet packetLength = Some mess →
  sessionTable st !! TupleString (MsgTuple mess) = None →
  sessionTable st !! TupleStringReverse (MsgTuple mess) = None →
  newSessionBit pmark = false →
  resolve ctid packet packetLength pmark st
  = MidSession (AddSessionEntry ctid "bypass_packetd" (DictBool true) st).
Proof.
  intros Hparse Hf Hr Hnew. unfold resolve.
  by rewrite Hparse, lookupSessionEntry_miss, Hnew.
Qed.

Lemma resolve_miss_new_session (ctid : Z) (packet : Packet) (packetLength pmark : Z)
    (st : World) (mess : NfqueueMessage) :
  parseMessage packet packetLength = Some mess →
  sessionTable st !! TupleString (MsgTuple mess) = None →
  sessionTable st !! TupleStringReverse (MsgTuple mess) = None →
  newSessionBit pmark = true →
  resolve ctid packet packetLength pmark st
  = Dispatch (fresh (dom (heap st)))
      (setSession (Some (fresh (dom (heap st)))) true mess)
      (createSessionEntry (setSession None true mess) ctid st).2.
Proof.
  intros Hparse Hf Hr Hnew. unfold resolve.
  rewrite Hparse, lookupSessionEntry_miss, Hnew by done. cbn [negb].
  by rewrite !createSessionEntry_eq.
Qed.

(** The fan-out changes no field of a session record but [subscriptions]. *)
Lemma accountAndCall_record (ctid : Z) (session : Ptr) (mess : NfqueueMessage)
    (pmark : Z) (newSession : bool) (st : World) (s : SessionEntry) :
  heap st !! session = Some s →
  ∃ out st' subs,
    accountAndCall ctid session mess pmark newSession st = Some (out, st')
    ∧ fanoutFrame session (account session mess st) st'
    ∧ heap st' !! session
      = Some (setSubscriptions subs (accountPacket (wallClock st) (Length mess) s))
    ∧ subs ⊆ subscriptions s.
Proof.
  intros Hs.
  destruct (accountAndCall_spec ctid session mess pmark newSession st s Hs)
    as (run & _ & ->).
  pose proof (foldl_step_frame session mess ctid newSession run
                (pmark, account session mess st)) as Hframe.
  cbn [snd] in Hframe.
  pose proof Hframe as (_ & _ & _ & _ & _ & Hheap & _).
  specialize (Hheap session). rewrite (account_heap _ _ _ _ Hs) in Hheap.
  destruct Hheap as (subs & Hlook & Hsub & _).
  eexists _, _, subs. split; [done|]. split; [done|]. split; [done|].
  exact Hsub.
Qed.

(** Every first packet of a new flow is counted twice: once by
    [createSessionEntry], once more by the accounting of [nfqueueCallback]. *)
Lemma nfqueueCallback_new_flow_counters (ctid : Z) (packet : Packet)
    (packetLength pmark : Z) (st : World) (mess : NfqueueMessage) :
  parseMessage packet packetLength = Some mess →
  sessionTable st !! TupleString (MsgTuple mess) = None →
  sessionTable st !! TupleStringReverse (MsgTuple mess) = None →
  newSessionBit pmark = true →
  ∃ out st' s,
    nfqueueCallback ctid packet packetLength pmark st = Some (out, st')
    ∧ sessionTable st' !! TupleString (MsgTuple mess) = Some (fresh (dom (heap st)))
    ∧ heap st' !! fresh (dom (heap st)) = Some s
    ∧ PacketCount s = 2
    ∧ ByteCount s = uint64 (uint64 packetLength + uint64 packetLength)
    ∧ EventCount s = 2.
Proof.
  intros Hparse Hf Hr Hnew.
  rewrite nfqueueCallback_resolve, (resolve_miss_new_session _ _ _ _ _ mess) by done.
  rewrite createSessionEntry_eq. cbn [snd].
  match goal with |- context [accountAndCall _ ?p ?m _ _ ?w] =>
    destruct (accountAndCall_record ctid p m pmark (newSessionBit pmark) w
                (freshSession (setSession None true mess) ctid st))
      as (out & st' & subs & -> & Hframe & Hlook & _)
  end.
  { simpl. by rewrite lookup_insert_eq. }
  destruct Hframe as (_ & Htable & _).
  eexists out, st', _. split; [done|]. split.
  { rewrite Htable. simpl. by rewrite lookup_insert_eq. }
  split; [exact Hlook|]. simpl.
  assert (Hlen : Length mess = packetLength).
  { unfold parseMessage in Hparse.
    destruct (LayerIPv4 packet), (LayerIPv6 packet); simplify_eq; done. }
  rewrite Hlen. done.
Qed.

(** C2. On the first packet of a new flow (empty table, new-session bit set,
    a TCP SYN of 60 bytes) the call returns ACCEPT with mark 0x10000003 and
    leaves the fresh session with packetCount 2, byteCount 120 and
    eventCount 2: the packet is counted at creation and again by the
    accounting, so the counters are not 1, 60, 1. *)
Theorem nfqueueCallback_first_packet_counted_twice :
  (λ r, (r.1, sessionCounters synKey r.2))
    <$> nfqueueCallback 100 synPacket 60 0x10000000 twoPlugins
  = Some (Returned (NfAccept, 0x10000003), Some (2, 120, 2)).
Proof. vm_compute. reflexivity. Qed.

(** C6. An IP packet whose forward and reverse tuple strings are both absent
    from the session table and whose mark lacks bit 0x10000000 gets the
    verdict ACCEPT and its mark back; the dictionary entry
    (ctid, "bypass_packetd") is true afterwards; no session is created and
    the session table is as before. *)
Theorem nfqueueCallback_mid_session_bypass (ctid : Z) (packet : Packet)
    (packetLength pmark : Z) (st : World) (mess : NfqueueMessage) :
  parseMessage packet packetLength = Some mess →
  sessionTable st !! TupleString (MsgTuple mess) = None →
  sessionTable st !! TupleStringReverse (MsgTuple mess) = None →
  Z.land pmark 0x10000000 = 0 →
  ∃ st',
    nfqueueCallback ctid packet packetLength pmark st
    = Some (Returned (NfAccept, pmark), st')
    ∧ dictTable st' !! (ctid, "bypass_packetd") = Some (DictBool true)
    ∧ sessionTable st' = sessionTable st
    ∧ conntrackIndex st' = conntrackIndex st
    ∧ heap st' = heap st
    ∧ sessionIndex st' = sessionIndex st.
Proof.
  intros Hparse Hf Hr Hbit.
  rewrite nfqueueCallback_resolve,
    (resolve_miss_mid_session _ _ _ _ _ mess) by
      (done || by unfold newSessionBit; rewrite Hbit).
  eexists. split; [done|]. simpl. by rewrite lookup_insert_eq.
Qed.

Lemma nfqueueCallback_mid_session_bypass_witness :
  ∃ st',
    nfqueueCallback 100 synPacket 60 0 (Startup 1000)
    = Some (Returned (NfAccept, 0), st')
    ∧ dictTable st' !! (100, "bypass_packetd") = Some (DictBool true)
    ∧ sessionTable st' = sessionTable (Startup 1000)
    ∧ conntrackIndex st' = conntrackIndex (Startup 1000)
    ∧ heap st' = heap (Startup 1000)
    ∧ sessionIndex st' = sessionIndex (Startup 1000).
Proof.
  eapply (nfqueueCallback_mid_session_bypass 100 synPacket 60 0 (Startup 1000)).
  - reflexivity.
  - reflexivity.
  - reflexivity.
  - reflexivity.
Defined.

(** [callSubscribers] returns exactly when every priority of the mirror lies
    in 0..99; otherwise it panics. *)
Lemma callSubscribers_returns_iff (ctid : Z) (session : Ptr)
    (mess : NfqueueMessage) (pmark : Z) (newSession : bool) (st : World)
    (sublist : gmap string SubscriptionHolder) :
  MirrorNfqueueSubscriptions session st = Some sublist →
  (∃ result st', callSubscribers ctid session mess pmark newSession st
                 = Some (Returned result, st'))
  ↔ prioritiesIn 0 99 sublist.
Proof.
  intros Hmirror.
  destruct (callSubscribers_spec session mess ctid newSession pmark st sublist
              Hmirror) as (run & _ & ->).
  destruct (fanoutOutcome_cases mess ctid newSession pmark sublist)
    as [Hret|[Hfatal Hprio]].
  - rewrite Hret. split; [|eauto]. intros _.
    apply (priorityBand_all sublist 0 99). change (99 + 1) with 100.
    unfold fanoutOutcome in Hret. case_bool_decide as Hlen; [|done].
    by apply priorityBand_full.
  - rewrite Hfatal. split; [|done]. by intros (result & st' & [=]).
Qed.

(** C3. A session whose only subscription has priority 100, inside [0,100]:
    the handler is called once, and then [callSubscribers] raises the
    priority to 101 and panics, although no subscriber is left uncalled. *)
Theorem callSubscribers_priority_100_fatal :
  ∃ session mess st,
    resolve 100 synPacket 60 0x10000000 edgePriority = Dispatch session mess st
    ∧ prioritiesIn 0 100 (subscribed session st)
    ∧ (λ r, (r.1, invokedBetween st r.2))
        <$> callSubscribers 100 session mess 0x10000000 true st
      = Some (Fatal "Constraint failed - infinite loop detected", ["A"]).
Proof.
  eexists _, _, _. split; [vm_compute; reflexivity|]. split.
  - apply (priorityBand_all _ 0 100). vm_compute. reflexivity.
  - vm_compute. reflexivity.
Qed.

(** C4 as stated fails: with an empty registry the first packet of a flow
    creates a session without subscriptions; the dispatch completes with
    the subscriptions empty and no bypass entry in the dictionary. *)
Lemma bypass_missing_for_session_born_empty :
  (λ r, (r.1,
         size <$> (subscriptions <$> sessionAt synKey r.2),
         ConntrackID <$> sessionAt synKey r.2,
         dictTable r.2 !! (100, "bypass_packetd")))
    <$> nfqueueCallback 100 synPacket 60 0x10000000 (Startup 1000)
  = Some (Returned (NfAccept, 0x10000000), Some 0%nat, Some 100, None)
  ∧ ¬ (∀ ctid packet packetLength pmark st session mess st1 out st' s,
         resolve ctid packet packetLength pmark st = Dispatch session mess st1 →
         nfqueueCallback ctid packet packetLength pmark st = Some (out, st') →
         heap st' !! session = Some s →
         subscriptions s = ∅ →
         dictTable st' !! (ConntrackID s, "bypass_packetd") = Some (DictBool true)).
Proof.
  split; [vm_compute; reflexivity|].
  intros Hclaim.
  specialize (Hclaim 100 synPacket 60 0x10000000 (Startup 1000)).
  destruct (resolve 100 synPacket 60 0x10000000 (Startup 1000))
    as [| | |session mess st1] eqn:Hres;
    try (vm_compute in Hres; discriminate Hres).
  destruct (nfqueueCallback 100 synPacket 60 0x10000000 (Startup 1000))
    as [[out st']|] eqn:Hcall; [|vm_compute in Hcall; discriminate Hcall].
  specialize (Hclaim session mess st1 out st').
  vm_compute in Hres. injection Hres as <- <- <-.
  vm_compute in Hcall. injection Hcall as <- <-.
  epose proof (Hclaim _ eq_refl eq_refl ltac:(vm_compute; reflexivity)
                 ltac:(vm_compute; reflexivity)) as Hbad.
  vm_compute in Hbad. discriminate Hbad.
Qed.

(** C4, amended. If the session a packet is dispatched on has subscriptions
    when the fan-out starts and none when [nfqueueCallback] is done, then the
    dictionary entry (conntrackID, "bypass_packetd") of that session is true
    at that point; and the very release that empties a subscription map
    writes the entry. *)
Theorem bypass_set_once_release_empties (ctid : Z) (packet : Packet)
    (packetLength pmark : Z) (st : World) :
  (∀ session mess st1 s out st' s',
      resolve ctid packet packetLength pmark st = Dispatch session mess st1 →
      heap st1 !! session = Some s →
      subscriptions s ≠ ∅ →
      nfqueueCallback ctid packet packetLength pmark st = Some (out, st') →
      heap st' !! session = Some s' →
      subscriptions s' = ∅ →
      ConntrackID s' = ConntrackID s
      ∧ dictTable st' !! (ConntrackID s, "bypass_packetd") = Some (DictBool true))
  ∧ (∀ session owner s,
      heap st !! session = Some s →
      subscriptions s ≠ ∅ →
      delete owner (subscriptions s) = ∅ →
      dictTable (ReleaseSession session owner st)
        !! (ConntrackID s, "bypass_packetd") = Some (DictBool true)).
Proof.
  split.
  - intros session mess st1 s out st' s' Hres Hs Hne Hcall Hs' Hempty.
    rewrite nfqueueCallback_resolve, Hres in Hcall.
    destruct (accountAndCall_spec ctid session mess pmark (newSessionBit pmark)
                st1 s Hs) as (run & _ & Hspec).
    destruct (accountAndCall_record ctid session mess pmark (newSessionBit pmark)
                st1 s Hs) as (out0 & st0 & subs & Hrec & _ & Hlook & _).
    rewrite Hcall in Hspec, Hrec. injection Hrec as <- <-.
    rewrite Hs' in Hlook. injection Hlook as ->.
    split; [done|].
    injection Hspec as _ Hst'.
    assert (Hinv : bypassInv session (account session mess st1)).
    { intros s0 Hs0 Hs0empty. rewrite (account_heap _ _ _ _ Hs) in Hs0.
      injection Hs0 as <-. done. }
    apply (foldl_step_bypassInv session mess ctid (newSessionBit pmark) run
             (pmark, account session mess st1)) in Hinv.
    rewrite <- Hst' in Hinv. specialize (Hinv _ Hs' Hempty). exact Hinv.
  - intros session owner s Hs Hne Hdel.
    by apply ReleaseSession_sets_bypass.
Qed.

Lemma bypass_set_once_release_empties_witness :
  (dictTable <$> (snd <$> nfqueueCallback 100 synPacket 60 0x10000000 oneReleasing))
    ≫= (λ d, d !! (100, "bypass_packetd"))
  = Some (DictBool true).
Proof.
  destruct (bypass_set_once_release_empties 100 synPacket 60 0x10000000
              oneReleasing) as [Hdispatch _].
  destruct (nfqueueCallback 100 synPacket 60 0x10000000 oneReleasing)
    as [[out st']|] eqn:Hcall; [|vm_compute in Hcall; discriminate Hcall].
  simpl.
  edestruct Hdispatch as [_ Hset].
  - vm_compute. reflexivity.
  - vm_compute. reflexivity.
  - vm_compute. discriminate.
  - reflexivity.
  - vm_compute in Hcall. injection Hcall as _ <-. vm_compute. reflexivity.
  - vm_compute. reflexivity.
  - exact Hset.
Defined.

(** C8. [InsertNfqueueSubscription] of dispatch.go: a subscription for an
    owner that is already registered ends in the panic
    "DUPLICATE NFQUEUE SUBSCRIPTION DETECTED!"; for an owner not yet
    registered the call returns, the registry gains the entry of that owner,
    grows by exactly one, and keeps every other entry. *)
Theorem InsertNfqueueSubscription_duplicate_fatal (owner : string) (priority : Z)
    (function : NfqueueHandlerFunction)
    (nfqueueSubList : gmap string SubscriptionHolder) :
  let r := DispatchGo.InsertNfqueueSubscription owner priority function
             nfqueueSubList in
  (is_Some (nfqueueSubList !! owner) →
     r.1 = Fatal "DUPLICATE NFQUEUE SUBSCRIPTION DETECTED!")
  ∧ (nfqueueSubList !! owner = None →
     r.1 = Returned ()
     ∧ r.2 !! owner
       = Some {| HolderOwner := owner; Priority := priority;
                 NfqueueFunc := function |}
     ∧ size r.2 = S (size nfqueueSubList)
     ∧ ∀ other, other ≠ owner → r.2 !! other = nfqueueSubList !! other).
Proof.
  unfold DispatchGo.InsertNfqueueSubscription. cbn zeta. split.
  - intros Hdup. by rewrite bool_decide_eq_true_2.
  - intros Hnew. rewrite bool_decide_eq_false_2.
    2:{ rewrite Hnew. by intros [? [=]]. }
    cbn [fst snd]. split; [done|]. split; [by rewrite lookup_insert_eq|].
    split; [by apply map_size_insert_None|].
    intros other Hne. by rewrite lookup_insert_ne.
Qed.

Lemma InsertNfqueueSubscription_duplicate_fatal_witness :
  (DispatchGo.InsertNfqueueSubscription "A" 1 sleeper
     (DispatchGo.InsertNfqueueSubscription "A" 0 sleeper ∅).2).1
  = Fatal "DUPLICATE NFQUEUE SUBSCRIPTION DETECTED!"
  ∧ (DispatchGo.InsertNfqueueSubscription "B" 1 sleeper
       (DispatchGo.InsertNfqueueSubscription "A" 0 sleeper ∅).2).1
    = Returned ()
  ∧ size (DispatchGo.InsertNfqueueSubscription "B" 1 sleeper
            (DispatchGo.InsertNfqueueSubscription "A" 0 sleeper ∅).2).2
    = 2%nat.
Proof.
  split.
  - apply (InsertNfqueueSubscription_duplicate_fatal "A" 1 sleeper).
    vm_compute. eauto.
  - destruct (InsertNfqueueSubscription_duplicate_fatal "B" 1 sleeper
                (DispatchGo.InsertNfqueueSubscription "A" 0 sleeper ∅).2)
      as [_ Hnew].
    destruct Hnew as (Hret & _ & Hsize & _); [vm_compute; reflexivity|].
    split; [exact Hret|]. etrans; [exact Hsize|]. vm_compute. reflexivity.
Defined.

(** The copy of [InsertNfqueueSubscription] in nfqueue.go, an older state of
    the same function, has no duplicate check: it always returns, and a
    second subscription of an owner replaces the first. *)
Lemma InsertNfqueueSubscription_replaces (owner : string) (priority : Z)
    (function : NfqueueHandlerFunction) (st : World) :
  nfqueueList (InsertNfqueueSubscription owner priority function st) !! owner
  = Some {| HolderOwner := owner; Priority := priority; NfqueueFunc := function |}.
Proof. unfold InsertNfqueueSubscription. simpl. by rewrite lookup_insert_eq. Qed.

(** Owner A registered twice through the copy in nfqueue.go: the second
    call returns, and the registry has one entry, the second holder. *)
Lemma InsertNfqueueSubscription_unchecked_copy :
  Priority <$> nfqueueList duplicateOwner !! "A" = Some 1
  ∧ size (nfqueueList duplicateOwner) = 1%nat.
Proof. vm_compute. auto. Qed.

(** ** Collisions with an existing session *)

Lemma removeSessionEntry_heap (finder : string) (st : World) :
  heap (removeSessionEntry finder st) = heap st.
Proof.
  unfold removeSessionEntry.
  destruct (sessionTable st !! finder) as [entry|]; [|done].
  by destruct (heap st !! entry).
Qed.

Lemma removeSessionEntry_frame (finder : string) (st : World) :
  nfqueueList (removeSessionEntry finder st) = nfqueueList st
  ∧ sessionIndex (removeSessionEntry finder st) = sessionIndex st
  ∧ dictTable (removeSessionEntry finder st) = dictTable st
  ∧ callLog (removeSessionEntry finder st) = callLog st
  ∧ wallClock (removeSessionEntry finder st) = wallClock st
  ∧ sessionTable (removeSessionEntry finder st) = delete finder (sessionTable st).
Proof.
  unfold removeSessionEntry.
  destruct (sessionTable st !! finder) as [entry|] eqn:Hfind.
  - by destruct (heap st !! entry).
  - split_and!; try done. symmetry. by apply delete_id.
Qed.

(** A new-session packet that hits a confirmed session, by either key, goes
    on with that session: nothing is removed and nothing is created. *)
Lemma resolve_hit_confirmed_keeps (ctid : Z) (packet : Packet)
    (packetLength pmark : Z) (st : World) (mess : NfqueueMessage)
    (found : Ptr) (clientToServer : bool) (s : SessionEntry) :
  parseMessage packet packetLength = Some mess →
  lookupSessionEntry mess ctid st = (Some found, clientToServer) →
  heap st !! found = Some s →
  ConntrackConfirmed s = true →
  resolve ctid packet packetLength pmark st
  = Dispatch found (setSession (Some found) clientToServer mess) st.
Proof.
  intros Hparse Hlook Hs Hconf. unfold resolve.
  rewrite Hparse, Hlook, Hs, Hconf. by rewrite andb_false_r.
Qed.

(** A new-session packet whose forward key hits an unconfirmed session: the
    old record leaves the table, a new record takes the key, and the new
    session id is the counter value, above every id handed out before. *)
Lemma resolve_forward_hit_unconfirmed_replaces (ctid : Z) (packet : Packet)
    (packetLength pmark : Z) (st : World) (mess : NfqueueMessage)
    (found : Ptr) (s : SessionEntry) :
  parseMessage packet packetLength = Some mess →
  sessionTable st !! TupleString (MsgTuple mess) = Some found →
  heap st !! found = Some s →
  ConntrackConfirmed s = false →
  newSessionBit pmark = true →
  SessionID s < sessionIndex st →
  ∃ session mess1 st1 s1,
    resolve ctid packet packetLength pmark st = Dispatch session mess1 st1
    ∧ session ≠ found
    ∧ sessionTable st1 !! TupleString (MsgTuple mess) = Some session
    ∧ heap st1 !! session = Some s1
    ∧ SessionID s < SessionID s1.
Proof.
  intros Hparse Hfind Hs Hconf Hnew Hid. unfold resolve.
  rewrite Hparse. unfold lookupSessionEntry, findSessionEntry. rewrite Hfind, Hs.
  rewrite Hnew, Hconf. cbn [negb andb].
  rewrite createSessionEntry_eq. unfold freshSession.
  destruct (removeSessionEntry_frame
              (TupleString (MsgTuple (setSession (Some found) true mess))) st)
    as (_ & Hidx & _).
  rewrite removeSessionEntry_heap, !Hidx.
  eexists _, _, _, _. split; [done|]. split.
  { intros Heq. pose proof (fresh_heap_None st) as Hfresh.
    rewrite Heq, Hs in Hfresh. discriminate Hfresh. }
  cbn [sessionTable heap]. rewrite !lookup_insert_eq.
  split; [done|]. split; [done|]. exact Hid.
Qed.

(** C5. After the SYN of flow 100 the table holds its unconfirmed session
    (id 65536000) under the SYN's key.  A new-session packet of the opposite
    direction, conntrack id 101, hits that session through the reverse key;
    [removeSessionEntry] is then called with the forward key of the packet,
    under which nothing is stored, so after the call the old session is still
    in the table, next to the new one (id 65536001). *)
Theorem reverse_hit_keeps_unconfirmed_session :
  SessionID <$> sessionAt synKey afterSyn = Some 65536000
  ∧ ConntrackConfirmed <$> sessionAt synKey afterSyn = Some false
  ∧ sessionAt replyKey afterSyn = None
  ∧ (λ r, (r.1, SessionID <$> sessionAt synKey r.2,
           SessionID <$> sessionAt replyKey r.2))
      <$> nfqueueCallback 101 replyPacket 60 0x10000000 afterSyn
    = Some (Returned (NfAccept, 0x10000003), Some 65536000, Some 65536001).
Proof. vm_compute. auto. Qed.

(** ** Which handlers a packet starts *)

Lemma resolve_preserves (ctid : Z) (packet : Packet) (packetLength pmark : Z)
    (st st1 : World) (session : Ptr) (mess : NfqueueMessage) :
  resolve ctid packet packetLength pmark st = Dispatch session mess st1 →
  callLog st1 = callLog st
  ∧ nfqueueList st1 = nfqueueList st
  ∧ ∀ p s, heap st !! p = Some s → heap st1 !! p = Some s.
Proof.
  unfold resolve.
  destruct (parseMessage packet packetLength) as [mess0|]; [|done].
  destruct (lookupSessionEntry mess0 ctid st) as [[found|] clientToServer].
  - destruct (heap st !! found) as [s0|] eqn:Hs0; [|done].
    destruct (_ && _).
    + rewrite createSessionEntry_eq. intros [= <- <- <-].
      rewrite removeSessionEntry_heap.
      destruct (removeSessionEntry_frame
        (TupleString (MsgTuple (setSession (Some found) clientToServer mess0))) st)
        as (Hreg & _ & _ & Hlog & _).
      cbn [callLog nfqueueList heap]. split; [done|]. split; [done|].
      intros p s Hp. rewrite lookup_insert_ne; [done|].
      intros <-. by rewrite fresh_heap_None in Hp.
    + by intros [= <- <- <-].
  - destruct (negb _); [done|].
    rewrite createSessionEntry_eq. intros [= <- <- <-].
    cbn [callLog nfqueueList heap]. split; [done|]. split; [done|].
    intros p s Hp. rewrite lookup_insert_ne; [done|].
    intros <-. by rewrite fresh_heap_None in Hp.
Qed.

(** The packet that is dispatched on [session]: its outcome, the handlers it
    starts, and the state it leaves. *)
Lemma nfqueueCallback_dispatch (ctid : Z) (packet : Packet)
    (packetLength pmark : Z) (st st1 : World) (session : Ptr)
    (mess : NfqueueMessage) (s : SessionEntry) :
  resolve ctid packet packetLength pmark st = Dispatch session mess st1 →
  heap st1 !! session = Some s →
  ∃ run st',
    run ≡ₚ priorityBand (subscriptions s) 0 101
    ∧ nfqueueCallback ctid packet packetLength pmark st
      = Some (fanoutOutcome mess ctid (newSessionBit pmark) pmark (subscriptions s),
              st')
    ∧ st' = (foldl (step session mess ctid (newSessionBit pmark))
                   (pmark, account session mess st1) run).2
    ∧ invokedBetween st st' = run.*1.
Proof.
  intros Hres Hs. rewrite nfqueueCallback_resolve, Hres.
  destruct (accountAndCall_spec ctid session mess pmark (newSessionBit pmark)
              st1 s Hs) as (run & Hperm & ->).
  eexists run, _. split; [done|]. split; [done|]. split; [done|].
  unfold invokedBetween. rewrite foldl_step_callLog. cbn [snd account setHeap callLog].
  destruct (resolve_preserves _ _ _ _ _ _ _ _ Hres) as (-> & _).
  by rewrite drop_app_length.
Qed.

Lemma priorityBand_lookup (sublist : gmap string SubscriptionHolder) (lo hi : Z)
    (run : list (string * SubscriptionHolder)) (key : string) :
  run ≡ₚ priorityBand sublist lo hi →
  key ∈ run.*1 →
  ∃ val, sublist !! key = Some val ∧ (key, val) ∈ run.
Proof.
  intros Hperm Hin. apply list_elem_of_fmap in Hin as ([k v] & -> & Hin).
  exists v. split; [|done]. rewrite Hperm in Hin.
  unfold priorityBand in Hin. apply list_elem_of_filter in Hin as [_ Hin].
  by apply elem_of_map_to_list in Hin.
Qed.

(** A packet leaves the subscriptions of every session as they were, or
    smaller. *)
Lemma nfqueueCallback_subscriptions_shrink (ctid : Z) (packet : Packet)
    (packetLength pmark : Z) (st st' : World) (out : Outcome (Z * Z))
    (p : Ptr) (s : SessionEntry) :
  nfqueueCallback ctid packet packetLength pmark st = Some (out, st') →
  heap st !! p = Some s →
  ∃ s', heap st' !! p = Some s' ∧ subscriptions s' ⊆ subscriptions s.
Proof.
  intros Hcall Hp. rewrite nfqueueCallback_resolve in Hcall.
  destruct (resolve ctid packet packetLength pmark st)
    as [|st0| |session mess st1] eqn:Hres.
  - injection Hcall as _ <-. eauto.
  - injection Hcall as _ <-.
    unfold resolve in Hres.
    destruct (parseMessage packet packetLength) as [mess0|]; [|done].
    destruct (lookupSessionEntry mess0 ctid st) as [[found|] c].
    + destruct (heap st !! found); [|done]. destruct (_ && _); [|done].
      by destruct (createSessionEntry _ _ _).
    + destruct (negb _).
      * injection Hres as <-. eauto.
      * by destruct (createSessionEntry _ _ _).
  - injection Hcall as _ <-. eauto.
  - destruct (resolve_preserves _ _ _ _ _ _ _ _ Hres) as (_ & _ & Hkeep).
    specialize (Hkeep _ _ Hp).
    destruct (resolve_Dispatch_heap _ _ _ _ _ _ _ _ Hres) as [s0 Hs0].
    destruct (accountAndCall_record ctid session mess pmark (newSessionBit pmark)
                st1 s0 Hs0) as (out0 & st0 & subs & Hrec & Hframe & _).
    rewrite Hcall in Hrec. injection Hrec as <- <-.
    destruct Hframe as (_ & _ & _ & _ & _ & Hheap & _).
    specialize (Hheap p). unfold account in Hheap. cbn [heap setHeap] in Hheap.
    destruct (decide (p = session)) as [->|Hne].
    + rewrite lookup_alter_eq, Hkeep in Hheap. cbn in Hheap.
      destruct Hheap as (subs' & -> & Hsub & _). eauto.
    + rewrite lookup_alter_ne, Hkeep in Hheap by done.
      destruct Hheap as (subs' & -> & Hsub & _). eauto.
Qed.

Lemma runPackets_subscriptions_shrink (events : list PacketEvent)
    (st st2 : World) (p : Ptr) (s : SessionEntry) :
  runPackets events st = Some st2 →
  heap st !! p = Some s →
  ∃ s2, heap st2 !! p = Some s2 ∧ subscriptions s2 ⊆ subscriptions s.
Proof.
  revert st s; induction events as [|[[[ctid packet] len] pmark] events IH];
    intros st s Hrun Hp.
  - injection Hrun as <-. eauto.
  - cbn [runPackets] in Hrun.
    destruct (nfqueueCallback ctid packet len pmark st) as [[[v|msg] st']|]
      eqn:Hcall; try done.
    destruct (nfqueueCallback_subscriptions_shrink _ _ _ _ _ _ _ _ _ Hcall Hp)
      as (s' & Hp' & Hsub).
    destruct (IH _ _ Hrun Hp') as (s2 & Hp2 & Hsub2).
    exists s2. split; [done|]. by etrans.
Qed.

(** Once an owner is off a session's subscriptions, no later packet that is
    dispatched on the session starts its handler. *)
Lemma unsubscribed_owner_not_called (session : Ptr) (key : string)
    (st' : World) (s' : SessionEntry) (events : list PacketEvent) (st2 : World) :
  heap st' !! session = Some s' →
  subscriptions s' !! key = None →
  runPackets events st' = Some st2 →
  subscribed session st2 !! key = None
  ∧ ∀ ctid packet packetLength pmark mess st3 out st4,
      resolve ctid packet packetLength pmark st2 = Dispatch session mess st3 →
      nfqueueCallback ctid packet packetLength pmark st2 = Some (out, st4) →
      key ∉ invokedBetween st2 st4.
Proof.
  intros Hs' Hkey Hrun.
  destruct (runPackets_subscriptions_shrink _ _ _ _ _ Hrun Hs')
    as (s2 & Hs2 & Hsub).
  assert (Hkey2 : subscriptions s2 !! key = None).
  { by eapply lookup_weaken_None. }
  split.
  { by rewrite (subscribed_heap _ _ _ Hs2). }
  intros ctid packet packetLength pmark mess st3 out st4 Hres Hcall Hin.
  destruct (resolve_preserves _ _ _ _ _ _ _ _ Hres) as (_ & _ & Hkeep).
  specialize (Hkeep _ _ Hs2).
  destruct (nfqueueCallback_dispatch _ _ _ _ _ _ _ _ _ Hres Hkeep)
    as (run & st0 & Hperm & Hcall0 & _ & Hinv).
  rewrite Hcall in Hcall0. injection Hcall0 as _ <-.
  rewrite Hinv in Hin.
  destruct (priorityBand_lookup _ _ _ _ _ Hperm Hin) as (val & Hval & _).
  by rewrite Hkey2 in Hval.
Qed.

Lemma dispatched_session_after (ctid : Z) (packet : Packet)
    (packetLength pmark : Z) (st st1 st' : World) (session : Ptr)
    (mess : NfqueueMessage) (s : SessionEntry) (out : Outcome (Z * Z)) :
  resolve ctid packet packetLength pmark st = Dispatch session mess st1 →
  heap st1 !! session = Some s →
  nfqueueCallback ctid packet packetLength pmark st = Some (out, st') →
  ∃ s', heap st' !! session = Some s'
        ∧ subscribed session st' = subscriptions s'.
Proof.
  intros Hres Hs Hcall. rewrite nfqueueCallback_resolve, Hres in Hcall.
  destruct (accountAndCall_record ctid session mess pmark (newSessionBit pmark)
              st1 s Hs) as (out0 & st0 & subs & Hrec & _ & Hlook & _).
  rewrite Hcall in Hrec. injection Hrec as <- <-.
  eexists. split; [exact Hlook|]. by apply subscribed_heap.
Qed.

(** C7. Let a packet be dispatched on a session, and let the handler of the
    subscription [key] be started for it and be pre-empted by the guard
    timer.  Then the result merged for it is
    [{Owner: key, PacketMark: 0, SessionRelease: true}]; the mark that is
    returned is the one the other subscriptions produce; [key] is off the
    session's subscriptions when the call is over; and after any further
    packets, no packet dispatched on that session starts the handler of [key]. *)
Theorem guard_expiry_releases_owner (ctid : Z) (packet : Packet)
    (packetLength pmark : Z) (st st1 st' : World) (session : Ptr)
    (mess : NfqueueMessage) (s : SessionEntry) (key : string)
    (val : SubscriptionHolder) (out : Outcome (Z * Z)) :
  resolve ctid packet packetLength pmark st = Dispatch session mess st1 →
  heap st1 !! session = Some s →
  subscriptions s !! key = Some val →
  NfqueueFunc val mess ctid (newSessionBit pmark) = GuardExpired →
  nfqueueCallback ctid packet packetLength pmark st = Some (out, st') →
  key ∈ invokedBetween st st' →
  guardedCall mess ctid (newSessionBit pmark) (key, val)
  = {| Owner := key; PacketMark := 0; SessionRelease := true |}
  ∧ (∀ verdict mark, out = Returned (verdict, mark) →
       mark = Z.lor pmark (orMarks mess ctid (newSessionBit pmark)
                             (map_to_list (delete key (subscriptions s)))))
  ∧ subscribed session st' !! key = None
  ∧ ∀ events st2,
      runPackets events st' = Some st2 →
      subscribed session st2 !! key = None
      ∧ ∀ ctid2 packet2 packetLength2 pmark2 mess2 st3 out2 st4,
          resolve ctid2 packet2 packetLength2 pmark2 st2 = Dispatch session mess2 st3 →
          nfqueueCallback ctid2 packet2 packetLength2 pmark2 st2 = Some (out2, st4) →
          key ∉ invokedBetween st2 st4.
Proof.
  intros Hres Hs Hkey Hguard Hcall Hin.
  assert (Hresult : guardedCall mess ctid (newSessionBit pmark) (key, val)
                    = {| Owner := key; PacketMark := 0; SessionRelease := true |}).
  { unfold guardedCall. cbn [fst snd]. by rewrite Hguard. }
  destruct (nfqueueCallback_dispatch _ _ _ _ _ _ _ _ _ Hres Hs)
    as (run & st0 & Hperm & Hcall0 & Hst0 & Hinv).
  rewrite Hcall in Hcall0. injection Hcall0 as Hout <-.
  assert (Hgone : subscribed session st' !! key = None).
  { rewrite Hinv in Hin.
    destruct (priorityBand_lookup _ _ _ _ _ Hperm Hin) as (val' & Hval' & Hrun).
    rewrite Hkey in Hval'. injection Hval' as <-.
    pose proof (foldl_step_released session mess ctid (newSessionBit pmark) run
                  (pmark, account session mess st1) (key, val) Hrun) as Hrel.
    rewrite Hresult in Hrel. cbn [SessionRelease Owner] in Hrel.
    rewrite Hst0. by apply Hrel. }
  split; [exact Hresult|]. split.
  { intros verdict mark ->.
    destruct (fanoutOutcome_cases mess ctid (newSessionBit pmark) pmark
                (subscriptions s)) as [Hret|[Hfatal _]];
      rewrite <- Hout in *; [|done].
    injection Hret as _ ->. f_equal.
    rewrite <- (orMarks_perm mess ctid (newSessionBit pmark) _ _
                  (map_to_list_delete (subscriptions s) key val Hkey)).
    cbn [orMarks foldr]. by rewrite Hresult. }
  split; [exact Hgone|].
  intros events st2 Hrun.
  destruct (dispatched_session_after _ _ _ _ _ _ _ _ _ _ _ Hres Hs Hcall)
    as (s' & Hs' & Hsubs').
  rewrite Hsubs' in Hgone.
  exact (unsubscribed_owner_not_called session key st' s' events st2 Hs' Hgone Hrun).
Qed.

Lemma guard_expiry_releases_owner_witness :
  subscribed 0%nat (stateAfter 100 synPacket 60 0x10000000 oneSleeper) !! "S" = None.
Proof.
  edestruct (guard_expiry_releases_owner 100 synPacket 60 0x10000000 oneSleeper)
    with (st' := stateAfter 100 synPacket 60 0x10000000 oneSleeper)
         (session := 0%nat) (key := "S") (out := Returned (NfAccept, 0x10000000))
    as (_ & _ & Hgone & _).
  - vm_compute. reflexivity.
  - vm_compute. reflexivity.
  - vm_compute. reflexivity.
  - vm_compute. reflexivity.
  - vm_compute. reflexivity.
  - vm_compute. apply list_elem_of_here.
  - exact Hgone.
Defined.

(** The marks as the handlers deliver them: the [PacketMark] of the result
    a handler answers with, 0 for a handler the guard timer answers for. *)
Lemma orMarks_delivered (mess : NfqueueMessage) (ctid : Z) (newSession : bool)
    (l : list (string * SubscriptionHolder)) :
  orMarks mess ctid newSession l
  = foldr (λ sub acc,
             Z.lor (match NfqueueFunc sub.2 mess ctid newSession with
                    | Completed result => PacketMark result
                    | GuardExpired => 0
                    end) acc) 0 l.
Proof.
  induction l as [|sub l IH]; [done|].
  cbn [orMarks foldr]. unfold orMarks in IH. rewrite IH.
  unfold guardedCall. by destruct (NfqueueFunc sub.2 mess ctid newSession).
Qed.

(** The owner a handler takes off the session for the packets to come: the
    one its result names when it asks for a release, its own when the guard
    timer answers for it. *)
Lemma guardedCall_released (mess : NfqueueMessage) (ctid : Z) (newSession : bool)
    (owner released : string) (holder : SubscriptionHolder) :
  match NfqueueFunc holder mess ctid newSession with
  | Completed result => SessionRelease result = true ∧ released = Owner result
  | GuardExpired => released = owner
  end →
  SessionRelease (guardedCall mess ctid newSession (owner, holder)) = true
  ∧ released = Owner (guardedCall mess ctid newSession (owner, holder)).
Proof.
  unfold guardedCall. cbn [fst snd].
  by destruct (NfqueueFunc holder mess ctid newSession).
Qed.

(** C10. Let a packet be dispatched on a session whose subscriptions, as they
    stand when the fan-out begins, have their priorities in 0..100.  Then the
    handlers started for the packet are exactly the owners of that snapshot,
    each once, and the function of every holder of the snapshot is run on the
    packet's message: a mark that is returned is the input mark OR the mark
    each of these functions delivers (and it is returned, with ACCEPT, when
    the priorities lie in 0..99).  A handler that releases an owner (the one
    its result names, or its own when the guard timer answers for it), of
    whatever priority, does not take that owner out of this fan-out: the
    owner is still started and its mark still merged; the owner is off the
    session's subscriptions afterwards, and no later packet dispatched on
    the session starts its handler. *)
Theorem fanout_follows_snapshot (ctid : Z) (packet : Packet)
    (packetLength pmark : Z) (st st1 st' : World) (session : Ptr)
    (mess : NfqueueMessage) (s : SessionEntry) (out : Outcome (Z * Z)) :
  resolve ctid packet packetLength pmark st = Dispatch session mess st1 →
  heap st1 !! session = Some s →
  prioritiesIn 0 100 (subscriptions s) →
  nfqueueCallback ctid packet packetLength pmark st = Some (out, st') →
  invokedBetween st st' ≡ₚ (map_to_list (subscriptions s)).*1
  ∧ NoDup (invokedBetween st st')
  ∧ (∀ verdict mark,
        out = Returned (verdict, mark) →
        verdict = NfAccept
        ∧ mark
          = Z.lor pmark
              (foldr (λ sub acc,
                        Z.lor (match NfqueueFunc sub.2 mess ctid (newSessionBit pmark) with
                               | Completed result => PacketMark result
                               | GuardExpired => 0
                               end) acc)
                     0 (map_to_list (subscriptions s))))
  ∧ (prioritiesIn 0 99 (subscriptions s) →
     ∃ mark, out = Returned (NfAccept, mark))
  ∧ ∀ owner holder released,
      subscriptions s !! owner = Some holder →
      match NfqueueFunc holder mess ctid (newSessionBit pmark) with
      | Completed result => SessionRelease result = true ∧ released = Owner result
      | GuardExpired => released = owner
      end →
      (is_Some (subscriptions s !! released) → released ∈ invokedBetween st st')
      ∧ subscribed session st' !! released = None
      ∧ ∀ events st2,
          runPackets events st' = Some st2 →
          ∀ ctid2 packet2 packetLength2 pmark2 mess2 st3 out2 st4,
            resolve ctid2 packet2 packetLength2 pmark2 st2
            = Dispatch session mess2 st3 →
            nfqueueCallback ctid2 packet2 packetLength2 pmark2 st2
            = Some (out2, st4) →
            released ∉ invokedBetween st2 st4.
Proof.
  intros Hres Hs Hprio Hcall.
  destruct (nfqueueCallback_dispatch _ _ _ _ _ _ _ _ _ Hres Hs)
    as (run & st0 & Hperm & Hcall0 & Hst0 & Hinv).
  rewrite Hcall in Hcall0. injection Hcall0 as Hout <-.
  apply (priorityBand_all (subscriptions s) 0 100) in Hprio.
  change (100 + 1) with 101 in Hprio. rewrite Hprio in Hperm.
  assert (Hall : invokedBetween st st' ≡ₚ (map_to_list (subscriptions s)).*1).
  { by rewrite Hinv, Hperm. }
  split; [exact Hall|]. split.
  { rewrite Hall. apply NoDup_fst_map_to_list. }
  split.
  { intros verdict mark ->.
    destruct (fanoutOutcome_cases mess ctid (newSessionBit pmark) pmark
                (subscriptions s)) as [Hret|[Hfatal _]];
      rewrite <- Hout in *; [|done].
    injection Hret as -> ->. by rewrite orMarks_delivered. }
  split.
  { intros Hprio99. rewrite Hout, fanoutOutcome_Returned by done. eauto. }
  intros owner holder released Howner Hrun.
  destruct (guardedCall_released _ _ _ _ _ _ Hrun) as [Hrel ->].
  split.
  { intros [v Hv]. rewrite Hall. apply list_elem_of_fmap.
    exists (Owner (guardedCall mess ctid (newSessionBit pmark) (owner, holder)), v).
    split; [done|]. by apply elem_of_map_to_list. }
  assert (Hgone : subscribed session st'
                    !! Owner (guardedCall mess ctid (newSessionBit pmark)
                                (owner, holder)) = None).
  { rewrite Hst0. apply foldl_step_released; [|done].
    rewrite Hperm. by apply elem_of_map_to_list. }
  split; [exact Hgone|].
  intros events st2 Hrun2.
  destruct (dispatched_session_after _ _ _ _ _ _ _ _ _ _ _ Hres Hs Hcall)
    as (s' & Hs' & Hsubs').
  rewrite Hsubs' in Hgone.
  apply (unsubscribed_owner_not_called session _ st' s' events st2 Hs' Hgone Hrun2).
Qed.

Lemma fanout_follows_snapshot_witness :
  invokedBetween crossRelease (stateAfter 100 synPacket 60 0x10000000 crossRelease)
  ≡ₚ ["A"; "B"]
  ∧ fst <$> nfqueueCallback 100 synPacket 60 0x10000000 crossRelease
    = Some (Returned (NfAccept, Z.lor 0x10000000 (Z.lor 1 2)))
  ∧ subscribed 0%nat (stateAfter 100 synPacket 60 0x10000000 crossRelease) !! "B"
    = None.
Proof.
  set (out := default (Fatal "")
                (fst <$> nfqueueCallback 100 synPacket 60 0x10000000 crossRelease)).
  edestruct (fanout_follows_snapshot 100 synPacket 60 0x10000000 crossRelease)
    with (st' := stateAfter 100 synPacket 60 0x10000000 crossRelease)
         (session := 0%nat) (out := out)
    as (Hall & _ & Hmark & Hreturns & Hrel).
  - vm_compute. reflexivity.
  - vm_compute. reflexivity.
  - apply (priorityBand_all _ 0 100). vm_compute. reflexivity.
  - vm_compute. reflexivity.
  - destruct Hreturns as [mark Hout].
    { apply (priorityBand_all _ 0 99). vm_compute. reflexivity. }
    destruct (Hmark NfAccept mark Hout) as [_ Hmerged].
    split; [|split].
    + etrans; [exact Hall|]. vm_compute. reflexivity.
    + transitivity (Some out); [vm_compute; reflexivity|].
      rewrite Hout, Hmerged. vm_compute. reflexivity.
    + edestruct Hrel with (owner := "A") (released := "B") as (_ & Hgone & _).
      * vm_compute. reflexivity.
      * vm_compute. auto.
      * exact Hgone.
Defined.

(** ** The same packet twice *)

Lemma lookupSessionEntry_table (mess : NfqueueMessage) (ctid : Z) (st st' : World) :
  sessionTable st' = sessionTable st →
  lookupSessionEntry mess ctid st' = lookupSessionEntry mess ctid st.
Proof. intros Heq. unfold lookupSessionEntry, findSessionEntry. by rewrite Heq. Qed.

Lemma orMarks_ext (mess1 mess2 : NfqueueMessage) (ctid : Z) (newSession : bool)
    (l : list (string * SubscriptionHolder)) :
  (∀ sub, sub ∈ l →
     guardedCall mess1 ctid newSession sub = guardedCall mess2 ctid newSession sub) →
  orMarks mess1 ctid newSession l = orMarks mess2 ctid newSession l.
Proof.
  induction l as [|sub l IH]; intros Hext; [done|].
  cbn [orMarks foldr]. rewrite (Hext sub) by apply list_elem_of_here.
  f_equal. apply IH. intros sub' Hin. apply Hext. by apply list_elem_of_further.
Qed.

Lemma fanoutOutcome_ext (mess1 mess2 : NfqueueMessage) (ctid : Z)
    (newSession : bool) (pmark : Z) (sublist : gmap string SubscriptionHolder) :
  (∀ owner holder, sublist !! owner = Some holder →
     guardedCall mess1 ctid newSession (owner, holder)
     = guardedCall mess2 ctid newSession (owner, holder)) →
  fanoutOutcome mess1 ctid newSession pmark sublist
  = fanoutOutcome mess2 ctid newSession pmark sublist.
Proof.
  intros Hext. unfold fanoutOutcome. case_bool_decide; [|done].
  do 3 f_equal. apply orMarks_ext. intros [owner holder] Hin.
  apply Hext. by apply elem_of_map_to_list.
Qed.

(** How a packet can have come to be dispatched: on the session it found,
    kept as it is, or on a session created for it. *)
Lemma resolve_Dispatch_inv (ctid : Z) (packet : Packet) (packetLength pmark : Z)
    (st st0 : World) (session : Ptr) (mess : NfqueueMessage) :
  resolve ctid packet packetLength pmark st = Dispatch session mess st0 →
  ∃ mess0 c,
    parseMessage packet packetLength = Some mess0
    ∧ mess = setSession (Some session) c mess0
    ∧ ((lookupSessionEntry mess0 ctid st = (Some session, c)
        ∧ st0 = st
        ∧ ∃ s, heap st !! session = Some s
               ∧ newSessionBit pmark && negb (ConntrackConfirmed s) = false)
       ∨ (newSessionBit pmark = true
          ∧ sessionTable st0 !! TupleString (MsgTuple mess0) = Some session
          ∧ nfqueueList st0 = nfqueueList st
          ∧ ∃ s0, heap st0 !! session = Some s0
                  ∧ ConntrackConfirmed s0 = false
                  ∧ subscriptions s0 = nfqueueList st)).
Proof.
  unfold resolve.
  destruct (parseMessage packet packetLength) as [mess0|]; [|done].
  destruct (lookupSessionEntry mess0 ctid st) as [[found|] c] eqn:Hlook.
  - destruct (heap st !! found) as [s|] eqn:Hs; [|done].
    destruct (newSessionBit pmark && negb (ConntrackConfirmed s)) eqn:Hcond.
    + rewrite createSessionEntry_eq. intros [= <- <- <-].
      exists mess0, c. split; [done|]. split; [done|]. right.
      apply andb_true_iff in Hcond as [Hnew _].
      destruct (removeSessionEntry_frame
        (TupleString (MsgTuple (setSession (Some found) c mess0))) st)
        as (Hreg & _).
      cbn [sessionTable nfqueueList heap]. rewrite !lookup_insert_eq.
      split; [done|]. split; [done|]. split; [done|].
      eexists. split; [done|]. split; [done|]. exact Hreg.
    + intros [= <- <- <-]. exists mess0, c. split; [done|]. split; [done|].
      left. split; [done|]. split; [done|]. eauto.
  - destruct (negb (newSessionBit pmark)) eqn:Hnew; [done|].
    rewrite createSessionEntry_eq. intros [= <- <- <-].
    exists mess0, c. split; [done|]. split; [done|]. right.
    apply negb_false_iff in Hnew.
    cbn [sessionTable nfqueueList heap]. rewrite !lookup_insert_eq.
    split; [done|]. split; [done|]. split; [done|].
    eexists. split; [done|]. split; done.
Qed.

Lemma resolve_forward_hit_unconfirmed (ctid : Z) (packet : Packet)
    (packetLength pmark : Z) (st : World) (mess0 : NfqueueMessage)
    (found : Ptr) (s : SessionEntry) :
  parseMessage packet packetLength = Some mess0 →
  sessionTable st !! TupleString (MsgTuple mess0) = Some found →
  heap st !! found = Some s →
  ConntrackConfirmed s = false →
  newSessionBit pmark = true →
  ∃ session st0 s0,
    resolve ctid packet packetLength pmark st
    = Dispatch session (setSession (Some session) true mess0) st0
    ∧ heap st0 !! session = Some s0
    ∧ subscriptions s0 = nfqueueList st.
Proof.
  intros Hparse Hfind Hs Hconf Hnew. unfold resolve.
  rewrite Hparse. unfold lookupSessionEntry, findSessionEntry.
  rewrite Hfind, Hs, Hnew, Hconf. cbn [negb andb].
  rewrite createSessionEntry_eq.
  destruct (removeSessionEntry_frame
    (TupleString (MsgTuple (setSession (Some found) true mess0))) st)
    as (Hreg & _).
  eexists _, _, _. split; [done|]. cbn [heap]. rewrite lookup_insert_eq.
  split; [done|]. exact Hreg.
Qed.

(** C9 as stated fails: the plugin releases on the first packet from the
    server, so of two identical server packets (same conntrack id, mark 0)
    the first is marked by it and the second is not. *)
Lemma replay_after_release_changes_mark :
  (fst <$> nfqueueCallback 100 replyPacket 60 0 statsAfterSyn
   = Some (Returned (NfAccept, 1))
   ∧ fst <$> nfqueueCallback 100 replyPacket 60 0
               (stateAfter 100 replyPacket 60 0 statsAfterSyn)
     = Some (Returned (NfAccept, 0)))
  ∧ ¬ (∀ ctid packet packetLength pmark st out1 st1 out2 st2,
         nfqueueCallback ctid packet packetLength pmark st = Some (out1, st1) →
         nfqueueCallback ctid packet packetLength pmark st1 = Some (out2, st2) →
         out1 = out2).
Proof.
  split; [vm_compute; auto|].
  intros Hclaim.
  specialize (Hclaim 100 replyPacket 60 0 statsAfterSyn
                (Returned (NfAccept, 1))
                (stateAfter 100 replyPacket 60 0 statsAfterSyn)
                (Returned (NfAccept, 0))
                (stateAfter 100 replyPacket 60 0
                   (stateAfter 100 replyPacket 60 0 statsAfterSyn))).
  assert (Hbad : Returned (NfAccept, 1) = Returned (NfAccept, 0) :> Outcome (Z * Z)).
  { apply Hclaim; vm_compute; reflexivity. }
  discriminate Hbad.
Qed.

(** With the new-session bit, the second of two identical calls can see the
    other direction flag: the first call finds the unconfirmed session through
    the reverse key and creates one under the forward key, which the second
    call then hits directly.  No release is involved. *)
Lemma replay_new_flow_changes_direction :
  fst <$> nfqueueCallback 101 replyPacket 60 0x10000000 directionAfterSyn
  = Some (Returned (NfAccept, 0x10000002))
  ∧ fst <$> nfqueueCallback 101 replyPacket 60 0x10000000
              (stateAfter 101 replyPacket 60 0x10000000 directionAfterSyn)
    = Some (Returned (NfAccept, 0x10000001)).
Proof. vm_compute. auto. Qed.

Lemma resolve_MidSession_inv (ctid : Z) (packet : Packet) (packetLength pmark : Z)
    (st st0 : World) :
  resolve ctid packet packetLength pmark st = MidSession st0 →
  st0 = AddSessionEntry ctid "bypass_packetd" (DictBool true) st
  ∧ ∀ st', sessionTable st' = sessionTable st →
           ∃ st0', resolve ctid packet packetLength pmark st' = MidSession st0'.
Proof.
  unfold resolve.
  destruct (parseMessage packet packetLength) as [mess0|]; [|done].
  destruct (lookupSessionEntry mess0 ctid st) as [[found|] c] eqn:Hlook.
  - destruct (heap st !! found); [|done]. destruct (_ && _); [|done].
    by destruct (createSessionEntry _ _ _).
  - destruct (negb (newSessionBit pmark)) eqn:Hnew.
    + intros [= <-]. split; [done|]. intros st' Htable.
      rewrite (lookupSessionEntry_table _ _ _ _ Htable), Hlook. eauto.
    + by destruct (createSessionEntry _ _ _).
Qed.

(** C9, amended.  Two calls in a row with the same packet, conntrack id and
    mark end alike (the same verdict and mark, or the same panic) when no
    result of the first call asks for a release (none sets [SessionRelease],
    none is made up after a guard expiry) and, if the mark carries the
    new-session bit, the registered handlers answer without regard to the
    [Session] and [ClientToServer] fields of the message, which the second
    call may fill differently. *)
Theorem replay_same_outcome_without_release (ctid : Z) (packet : Packet)
    (packetLength pmark : Z) (st st1 st2 : World) (out1 out2 : Outcome (Z * Z)) :
  nfqueueCallback ctid packet packetLength pmark st = Some (out1, st1) →
  nfqueueCallback ctid packet packetLength pmark st1 = Some (out2, st2) →
  (∀ session mess st0 s owner holder,
      resolve ctid packet packetLength pmark st = Dispatch session mess st0 →
      heap st0 !! session = Some s →
      subscriptions s !! owner = Some holder →
      SessionRelease (guardedCall mess ctid (newSessionBit pmark) (owner, holder))
      = false) →
  (newSessionBit pmark = false
   ∨ ∀ owner holder, nfqueueList st !! owner = Some holder →
       ∀ mess session c,
         NfqueueFunc holder (setSession session c mess) ctid true
         = NfqueueFunc holder mess ctid true) →
  out1 = out2.
Proof.
  intros H1 H2 Hnorel Hins.
  destruct (resolve ctid packet packetLength pmark st)
    as [|st0| |session mess st0] eqn:Hres.
  - rewrite nfqueueCallback_resolve, Hres in H1. injection H1 as <- <-.
    rewrite nfqueueCallback_resolve, Hres in H2. by injection H2.
  - rewrite nfqueueCallback_resolve, Hres in H1. injection H1 as <- <-.
    destruct (resolve_MidSession_inv _ _ _ _ _ _ Hres) as (-> & Hagain).
    destruct (Hagain (AddSessionEntry ctid "bypass_packetd" (DictBool true) st))
      as [st0' Hres']; [done|].
    rewrite nfqueueCallback_resolve, Hres' in H2. by injection H2.
  - rewrite nfqueueCallback_resolve, Hres in H1. injection H1 as <- <-.
    rewrite nfqueueCallback_resolve, Hres in H2. by injection H2.
  - destruct (resolve_Dispatch_heap _ _ _ _ _ _ _ _ Hres) as [s Hs].
    destruct (nfqueueCallback_dispatch _ _ _ _ _ _ _ _ _ Hres Hs)
      as (run & st' & Hperm & Hcall & Hst' & _).
    rewrite H1 in Hcall. injection Hcall as -> <-.
    specialize (Hnorel session mess st0 s).
    destruct (accountAndCall_record ctid session mess pmark (newSessionBit pmark)
                st0 s Hs) as (out0 & st1' & subs & Hrec & Hframe & Hlook1 & _).
    rewrite nfqueueCallback_resolve, Hres in H1.
    rewrite H1 in Hrec. injection Hrec as _ <-.
    destruct Hframe as (Hreg1 & Htable1 & _).
    cbn [account setHeap nfqueueList sessionTable] in Hreg1, Htable1.
    destruct (resolve_Dispatch_inv _ _ _ _ _ _ _ _ Hres)
      as (mess0 & c & Hparse & -> & [(Hlook & -> & s' & Hs' & Hcond)
                                     |(Hnew & Htable & Hreg & s0 & Hs0 & Hconf & Hsubs)]).
    + (* the session found is kept *)
      rewrite Hs in Hs'. injection Hs' as <-.
      assert (Hres' : resolve ctid packet packetLength pmark st1
                      = Dispatch session (setSession (Some session) c mess0) st1).
      { unfold resolve.
        rewrite Hparse, (lookupSessionEntry_table _ _ _ _ Htable1), Hlook, Hlook1.
        cbn [ConntrackConfirmed setSubscriptions accountPacket].
        by rewrite Hcond. }
      assert (Hsame : subs = subscriptions s).
      { assert (Hall : Forall (λ sub, SessionRelease
                           (guardedCall (setSession (Some session) c mess0) ctid
                              (newSessionBit pmark) sub) = false) run).
        { apply Forall_forall. intros [owner holder] Hin.
          rewrite Hperm in Hin. unfold priorityBand in Hin.
          apply list_elem_of_filter in Hin as [_ Hin].
          apply elem_of_map_to_list in Hin. by eapply Hnorel. }
        pose proof (foldl_step_no_release session
                      (setSession (Some session) c mess0) ctid
                      (newSessionBit pmark) run
                      (pmark, account session (setSession (Some session) c mess0) st)
                      Hall) as Hplain.
        rewrite <- Hst' in Hplain. cbn [snd] in Hplain.
        rewrite Hplain in Hlook1. cbn [logCalls heap] in Hlook1.
        rewrite (account_heap _ _ _ _ Hs) in Hlook1.
        injection Hlook1 as Heq. by rewrite Heq. }
      destruct (nfqueueCallback_dispatch _ _ _ _ _ _ _ _ _ Hres' Hlook1)
        as (run2 & st2' & _ & Hcall2 & _).
      rewrite H2 in Hcall2. injection Hcall2 as -> _.
      cbn [subscriptions setSubscriptions]. by rewrite Hsame.
    + (* a session was created; the second call replaces it *)
      rewrite Hs in Hs0. injection Hs0 as <-.
      assert (Hfwd : sessionTable st1 !! TupleString (MsgTuple mess0) = Some session).
      { by rewrite Htable1. }
      destruct (resolve_forward_hit_unconfirmed ctid packet packetLength pmark st1
                  mess0 session _ Hparse Hfwd Hlook1 Hconf Hnew)
        as (session2 & st0' & s2 & Hres' & Hs2 & Hsubs2).
      destruct (nfqueueCallback_dispatch _ _ _ _ _ _ _ _ _ Hres' Hs2)
        as (run2 & st2' & _ & Hcall2 & _).
      rewrite H2 in Hcall2. injection Hcall2 as -> _.
      rewrite Hsubs2, Hreg1, Hreg, Hsubs.
      destruct Hins as [Hold|Hins]; [congruence|].
      rewrite Hnew.
      transitivity (fanoutOutcome mess0 ctid true pmark (nfqueueList st)).
      * apply fanoutOutcome_ext. intros owner holder Hin. unfold guardedCall.
        cbn [fst snd]. by rewrite (Hins owner holder Hin).
      * symmetry. apply fanoutOutcome_ext. intros owner holder Hin.
        unfold guardedCall. cbn [fst snd]. by rewrite (Hins owner holder Hin).
Qed.

Lemma replay_same_outcome_without_release_witness :
  fst <$> nfqueueCallback 100 replyPacket 60 0 afterSyn
  = fst <$> nfqueueCallback 100 replyPacket 60 0
              (stateAfter 100 replyPacket 60 0 afterSyn).
Proof.
  unfold stateAfter.
  destruct (nfqueueCallback 100 replyPacket 60 0 afterSyn) as [[out1 st1]|] eqn:H1;
    [|vm_compute in H1; discriminate H1].
  simpl.
  destruct (nfqueueCallback 100 replyPacket 60 0 st1) as [[out2 st2]|] eqn:H2.
  2:{ vm_compute in H1. injection H1 as _ <-. vm_compute in H2. discriminate H2. }
  simpl. f_equal.
  apply (replay_same_outcome_without_release 100 replyPacket 60 0 afterSyn
           st1 st2 out1 out2 H1 H2).
  - intros session mess st0 s owner holder Hres Hs Hsub.
    vm_compute in Hres. injection Hres as <- <- <-.
    vm_compute in Hs. injection Hs as <-.
    apply elem_of_map_to_list in Hsub. vm_compute in Hsub.
    apply elem_of_cons in Hsub as [[= -> ->]|Hsub]; [reflexivity|].
    apply elem_of_cons in Hsub as [[= -> ->]|Hsub]; [reflexivity|].
    by apply elem_of_nil in Hsub.
  - left. reflexivity.
Defined.

(** * Further properties of the dispatch *)

(** X1. The collecting loop of [callSubscribers] ends with the same mark and
    the same state whatever the order in which the results of a layer are
    read from the channel. *)
Theorem collecting_order_irrelevant (session : Ptr)
    (results results' : list NfqueueResult) (pmark : Z) (st : World) :
  results ≡ₚ results' →
  foldl (mergeResult session) (pmark, st) results
  = foldl (mergeResult session) (pmark, st) results'.
Proof. intros Hperm. by apply foldl_mergeResult_perm. Qed.

Lemma collecting_order_irrelevant_witness :
  foldl (mergeResult 0%nat) (0, afterSyn) [releaseOf "A" 1; releaseOf "B" 2]
  = foldl (mergeResult 0%nat) (0, afterSyn) [releaseOf "B" 2; releaseOf "A" 1].
Proof.
  apply (collecting_order_irrelevant 0%nat
           [releaseOf "A" 1; releaseOf "B" 2] [releaseOf "B" 2; releaseOf "A" 1]
           0 afterSyn).
  apply perm_swap.
Defined.

(** X2. [callSubscribers] on a session with a record always ends: with the
    verdict ACCEPT when every priority of the mirror lies in 0..99, with the
    panic of the priority check otherwise. *)
Theorem callSubscribers_returns_or_panics (ctid : Z) (session : Ptr)
    (mess : NfqueueMessage) (pmark : Z) (newSession : bool) (st : World)
    (sublist : gmap string SubscriptionHolder) :
  MirrorNfqueueSubscriptions session st = Some sublist →
  ∃ out st',
    callSubscribers ctid session mess pmark newSession st = Some (out, st')
    ∧ (prioritiesIn 0 99 sublist → ∃ mark, out = Returned (NfAccept, mark))
    ∧ (¬ prioritiesIn 0 99 sublist →
       out = Fatal "Constraint failed - infinite loop detected").
Proof.
  intros Hmirror.
  destruct (callSubscribers_spec session mess ctid newSession pmark st sublist
              Hmirror) as (run & _ & ->).
  eexists _, _. split; [done|]. split.
  - intros Hprio. rewrite fanoutOutcome_Returned by done. eauto.
  - intros Hprio.
    by destruct (fanoutOutcome_cases mess ctid newSession pmark sublist)
      as [Hret|[Hfatal _]]; [|done];
      exfalso; apply Hprio;
      apply (priorityBand_all sublist 0 99); change (99 + 1) with 100;
      unfold fanoutOutcome in Hret; case_bool_decide; [|done];
      apply priorityBand_full.
Qed.

Lemma callSubscribers_returns_or_panics_witness :
  ∃ mark st',
    callSubscribers 100 0%nat replyMessage 0 false afterSyn
    = Some (Returned (NfAccept, mark), st').
Proof.
  destruct (callSubscribers_returns_or_panics 100 0%nat replyMessage 0 false
              afterSyn (nfqueueList twoPlugins))
    as (out & st' & Hcall & Hret & _).
  - vm_compute. reflexivity.
  - destruct Hret as [mark ->].
    + apply (priorityBand_all _ 0 99). vm_compute. reflexivity.
    + eauto.
Defined.

(** ** The order of the layers *)

Lemma layersFrom_elem (sublist : gmap string SubscriptionHolder) (n : nat)
    (p : Z) (sub : string * SubscriptionHolder) :
  sub ∈ layersFrom sublist p n →
  sublist !! sub.1 = Some sub.2 ∧ p ≤ Priority sub.2 < p + Z.of_nat n.
Proof.
  intros Hin. rewrite layersFrom_band in Hin. unfold priorityBand in Hin.
  apply list_elem_of_filter in Hin as [Hprio Hin]. destruct sub as [k v].
  apply elem_of_map_to_list in Hin. done.
Qed.

Lemma layersFrom_sorted (sublist : gmap string SubscriptionHolder) (n : nat)
    (p : Z) (i j : nat) (a b : string * SubscriptionHolder) :
  (i < j)%nat →
  layersFrom sublist p n !! i = Some a →
  layersFrom sublist p n !! j = Some b →
  Priority a.2 ≤ Priority b.2.
Proof.
  revert p i j. induction n as [|n IH]; intros p i j Hij Ha Hb; [done|].
  cbn [layersFrom] in Ha, Hb.
  apply lookup_app_Some in Ha as [Ha|[Hi Ha]];
    apply lookup_app_Some in Hb as [Hb|[Hj Hb]].
  - apply list_elem_of_lookup_2 in Ha, Hb. unfold layerOf in Ha, Hb.
    apply list_elem_of_filter in Ha as [Ha _].
    apply list_elem_of_filter in Hb as [Hb _]. lia.
  - apply list_elem_of_lookup_2 in Ha, Hb. unfold layerOf in Ha.
    apply list_elem_of_filter in Ha as [Ha _].
    apply layersFrom_elem in Hb as [_ Hb]. lia.
  - apply lookup_lt_Some in Hb. lia.
  - eapply (IH (p + 1)); [|exact Ha|exact Hb]. lia.
Qed.

(** With the mirror [sublist], [callSubscribers] handles the layers of the
    priorities 0, 1, ... up to some [n], in this order. *)
Lemma callSubscribers_layers (ctid : Z) (session : Ptr) (mess : NfqueueMessage)
    (pmark : Z) (newSession : bool) (st : World)
    (sublist : gmap string SubscriptionHolder) :
  MirrorNfqueueSubscriptions session st = Some sublist →
  ∃ (n : nat) (out : Outcome (Z * Z)),
    callSubscribers ctid session mess pmark newSession st
    = Some (out, (foldl (step session mess ctid newSession) (pmark, st)
                        (layersFrom sublist 0 n)).2).
Proof.
  intros Hmirror. unfold callSubscribers. rewrite Hmirror.
  destruct (priorityLoop_run sublist session mess ctid newSession 101 0 0%nat pmark st)
    as (n & out & Hrun & _).
  { lia. }
  { lia. }
  { by rewrite priorityBand_empty. }
  cbn zeta in Hrun. eauto.
Qed.

(** X3. The handlers that [callSubscribers] starts are subscriptions of the
    mirror, and they are started in the order of their priorities: a handler
    that is started later never has the lower priority. *)
Theorem handlers_start_in_priority_order (ctid : Z) (session : Ptr)
    (mess : NfqueueMessage) (pmark : Z) (newSession : bool) (st st' : World)
    (sublist : gmap string SubscriptionHolder) (out : Outcome (Z * Z)) :
  MirrorNfqueueSubscriptions session st = Some sublist →
  callSubscribers ctid session mess pmark newSession st = Some (out, st') →
  ∃ run,
    invokedBetween st st' = run.*1
    ∧ (∀ sub, sub ∈ run → sublist !! sub.1 = Some sub.2)
    ∧ ∀ (i j : nat) a b,
        (i < j)%nat → run !! i = Some a → run !! j = Some b →
        Priority a.2 ≤ Priority b.2.
Proof.
  intros Hmirror Hcall.
  destruct (callSubscribers_layers ctid session mess pmark newSession st sublist
              Hmirror) as (n & out0 & Hrun).
  rewrite Hcall in Hrun. injection Hrun as _ ->.
  exists (layersFrom sublist 0 n). split.
  { unfold invokedBetween. rewrite foldl_step_callLog. cbn [snd].
    by rewrite drop_app_length. }
  split.
  { intros sub Hin. by apply layersFrom_elem in Hin as [? _]. }
  intros i j a b. apply layersFrom_sorted.
Qed.

Lemma handlers_start_in_priority_order_witness :
  ∃ run,
    invokedBetween afterSyn
      (default afterSyn
         (snd <$> callSubscribers 100 0%nat replyMessage 0 false afterSyn))
    = run.*1
    ∧ (∀ sub, sub ∈ run → nfqueueList twoPlugins !! sub.1 = Some sub.2)
    ∧ ∀ (i j : nat) a b,
        (i < j)%nat → run !! i = Some a → run !! j = Some b →
        Priority a.2 ≤ Priority b.2.
Proof.
  eapply (handlers_start_in_priority_order 100 0%nat replyMessage 0 false afterSyn).
  - vm_compute. reflexivity.
  - vm_compute. reflexivity.
Defined.

(** ** The bits of the mark *)

Lemma lor_range (a b n : Z) :
  0 ≤ n → 0 ≤ a < 2 ^ n → 0 ≤ b < 2 ^ n → 0 ≤ Z.lor a b < 2 ^ n.
Proof.
  intros Hn Ha Hb. split; [apply Z.lor_nonneg; lia|].
  destruct (decide (Z.lor a b = 0)) as [->|Hne]; [lia|].
  assert (0 < Z.lor a b) by (pose proof (proj2 (Z.lor_nonneg a b)); lia).
  apply Z.log2_lt_pow2; [done|].
  rewrite Z.log2_lor by lia.
  apply Z.max_lub_lt.
  - destruct (decide (a = 0)) as [->|?].
    + cbn. destruct (decide (n = 0)) as [->|?]; [|lia].
      assert (b = 0) by lia. subst. done.
    + apply Z.log2_lt_pow2; lia.
  - destruct (decide (b = 0)) as [->|?].
    + cbn. destruct (decide (n = 0)) as [->|?]; [|lia].
      assert (a = 0) by lia. subst. done.
    + apply Z.log2_lt_pow2; lia.
Qed.

Lemma orMarks_range (mess : NfqueueMessage) (ctid : Z) (newSession : bool)
    (l : list (string * SubscriptionHolder)) :
  (∀ sub, sub ∈ l →
     0 ≤ PacketMark (guardedCall mess ctid newSession sub) < 2 ^ 32) →
  0 ≤ orMarks mess ctid newSession l < 2 ^ 32.
Proof.
  induction l as [|sub l IH]; intros Hall; [done|].
  cbn [orMarks foldr]. apply lor_range; [done| |].
  - apply Hall, list_elem_of_here.
  - apply IH. intros sub' Hin. by apply Hall, list_elem_of_further.
Qed.

(** X4. The mark [nfqueueCallback] returns keeps every bit of the mark it
    was given; and it fits in 32 bits when the input mark and the marks of
    the handler results do. *)
Theorem returned_mark_keeps_bits_and_range (ctid : Z) (packet : Packet)
    (packetLength pmark : Z) (st st' : World) (verdict mark : Z) :
  nfqueueCallback ctid packet packetLength pmark st
  = Some (Returned (verdict, mark), st') →
  Z.lor pmark mark = mark
  ∧ (0 ≤ pmark < 2 ^ 32 →
     (∀ session mess st1 s owner holder,
         resolve ctid packet packetLength pmark st = Dispatch session mess st1 →
         heap st1 !! session = Some s →
         subscriptions s !! owner = Some holder →
         0 ≤ PacketMark (guardedCall mess ctid (newSessionBit pmark) (owner, holder))
           < 2 ^ 32) →
     0 ≤ mark < 2 ^ 32).
Proof.
  intros Hcall. rewrite nfqueueCallback_resolve in Hcall.
  destruct (resolve ctid packet packetLength pmark st)
    as [|st0| |session mess st1] eqn:Hres.
  - injection Hcall as _ <- _. by rewrite Z.lor_diag.
  - injection Hcall as _ <- _. by rewrite Z.lor_diag.
  - done.
  - destruct (resolve_Dispatch_heap _ _ _ _ _ _ _ _ Hres) as [s Hs].
    destruct (accountAndCall_spec ctid session mess pmark (newSessionBit pmark)
                st1 s Hs) as (run & _ & Hspec).
    rewrite Hcall in Hspec. injection Hspec as Hout _.
    destruct (fanoutOutcome_cases mess ctid (newSessionBit pmark) pmark
                (subscriptions s)) as [Hret|[Hfatal _]];
      rewrite <- Hout in *; [|done].
    injection Hret as _ ->. split.
    + by rewrite Z.lor_assoc, Z.lor_diag.
    + intros Hpmark Hmarks. apply lor_range; [done|done|].
      apply orMarks_range. intros [owner holder] Hin.
      apply elem_of_map_to_list in Hin. by eapply Hmarks.
Qed.

Lemma returned_mark_keeps_bits_and_range_witness :
  Z.lor 0x10000000 0x10000003 = 0x10000003.
Proof.
  apply (returned_mark_keeps_bits_and_range 100 synPacket 60 0x10000000
           twoPlugins (stateAfter 100 synPacket 60 0x10000000 twoPlugins)
           NfAccept 0x10000003).
  vm_compute. reflexivity.
Defined.

(** ** Releases go by the owner a result names *)

Lemma ReleaseSession_lookup_ne (session : Ptr) (owner key : string) (st : World) :
  owner ≠ key →
  subscribed session (ReleaseSession session owner st) !! key
  = subscribed session st !! key.
Proof.
  intros Hne. unfold subscribed.
  destruct (heap st !! session) as [s|] eqn:Hs.
  - rewrite (ReleaseSession_Some session owner st s Hs).
    destruct (decide (subscriptions s = ∅)); [by rewrite Hs|].
    cbn zeta. destruct (decide (delete owner (subscriptions s) = ∅));
      cbn [heap AddSessionEntry setDictTable setHeap];
      rewrite lookup_insert_eq; cbn; by rewrite lookup_delete_ne.
  - unfold ReleaseSession. by rewrite Hs, Hs.
Qed.

Lemma foldl_mergeResult_gone (session : Ptr) (results : list NfqueueResult)
    (acc : Z * World) (key : string) :
  subscribed session acc.2 !! key = None →
  subscribed session (foldl (mergeResult session) acc results).2 !! key = None.
Proof.
  revert acc; induction results as [|result results IH]; intros acc Hgone;
    [done|].
  cbn [foldl]. apply IH. unfold mergeResult. cbn [snd].
  destruct (SessionRelease result); [|done].
  eapply lookup_weaken_None; [exact Hgone|].
  apply (subscribed_frame session), ReleaseSession_frame.
Qed.

(** X5. The collecting loop of [callSubscribers] takes off the session the
    owners that the releasing results name, and no other: an owner that no
    releasing result names has the subscription it had before the loop; an
    owner that a releasing result names is off the session when the loop is
    over, whichever result of the layer named it. *)
Theorem collecting_loop_releases_named (session : Ptr)
    (results : list NfqueueResult) (pmark : Z) (st : World) (key : string) :
  ((∀ result, result ∈ results → SessionRelease result = true →
              Owner result ≠ key) →
   subscribed session (foldl (mergeResult session) (pmark, st) results).2 !! key
   = subscribed session st !! key)
  ∧ ((∃ result, result ∈ results ∧ SessionRelease result = true
                ∧ Owner result = key) →
     subscribed session (foldl (mergeResult session) (pmark, st) results).2 !! key
     = None).
Proof.
  revert pmark st; induction results as [|result results IH]; intros pmark st.
  - split; [done|]. intros (result & Hin & _). by apply elem_of_nil in Hin.
  - cbn [foldl]. unfold mergeResult at 2 4. cbn [fst snd].
    destruct (IH (Z.lor pmark (PacketMark result))
                 (if SessionRelease result
                  then ReleaseSession session (Owner result) st else st))
      as [IHkept IHgone].
    split.
    + intros Hnamed. rewrite IHkept.
      * destruct (SessionRelease result) eqn:Hrel; [|done].
        apply ReleaseSession_lookup_ne, Hnamed; [apply list_elem_of_here|done].
      * intros result' Hin. apply Hnamed. by apply list_elem_of_further.
    + intros (result' & Hin & Hrel & Hkey).
      apply elem_of_cons in Hin as [->|Hin].
      * apply foldl_mergeResult_gone. cbn [snd]. rewrite Hrel, <- Hkey.
        apply ReleaseSession_removes.
      * apply IHgone. by exists result'.
Qed.

Lemma collecting_loop_releases_named_witness :
  Priority <$> subscribed 0%nat
                 (foldl (mergeResult 0%nat) (0, afterSyn)
                        [releaseOf "B" 1; releaseOf "C" 2]).2 !! "A"
  = Some 0
  ∧ subscribed 0%nat
      (foldl (mergeResult 0%nat) (0, afterSyn)
             [releaseOf "B" 1; releaseOf "C" 2]).2 !! "B"
    = None.
Proof.
  split.
  - destruct (collecting_loop_releases_named 0%nat
                [releaseOf "B" 1; releaseOf "C" 2] 0 afterSyn "A") as [Hkept _].
    rewrite Hkept; [vm_compute; reflexivity|].
    intros result Hin _.
    apply elem_of_cons in Hin as [->|Hin]; [vm_compute; discriminate|].
    apply elem_of_cons in Hin as [->|Hin]; [vm_compute; discriminate|].
    by apply elem_of_nil in Hin.
  - destruct (collecting_loop_releases_named 0%nat
                [releaseOf "B" 1; releaseOf "C" 2] 0 afterSyn "B") as [_ Hgone].
    apply Hgone. exists (releaseOf "B" 1).
    split; [apply list_elem_of_here|]. by split.
Defined.

(** ** [ReleaseSession] on its own *)

Lemma setHeap_same (st : World) : setHeap (heap st) st = st.
Proof. by destruct st. Qed.

Lemma ReleaseSession_absent (session : Ptr) (owner : string) (st : World)
    (s : SessionEntry) :
  heap st !! session = Some s →
  subscriptions s !! owner = None →
  ReleaseSession session owner st = st.
Proof.
  intros Hs Howner. rewrite (ReleaseSession_Some session owner st s Hs).
  destruct (decide (subscriptions s = ∅)) as [|Hne]; [done|].
  cbn zeta. rewrite (delete_id _ _ Howner).
  rewrite decide_False by done.
  rewrite setSubscriptions_id, (insert_id _ _ _ Hs). apply setHeap_same.
Qed.

(** X6. [ReleaseSession] takes exactly the named owner off the session and
    leaves every other session record alone; for an owner that is not
    subscribed (also when the map is empty) it changes nothing at all, so a
    second release of the same owner is without effect. *)
Theorem ReleaseSession_removes_exactly (session : Ptr) (owner : string)
    (st : World) (s : SessionEntry) :
  heap st !! session = Some s →
  subscribed session (ReleaseSession session owner st)
  = delete owner (subscriptions s)
  ∧ (∀ p, p ≠ session →
          heap (ReleaseSession session owner st) !! p = heap st !! p)
  ∧ (subscriptions s !! owner = None → ReleaseSession session owner st = st)
  ∧ ReleaseSession session owner (ReleaseSession session owner st)
    = ReleaseSession session owner st.
Proof.
  intros Hs.
  assert (Hsubs : subscribed session (ReleaseSession session owner st)
                  = delete owner (subscriptions s)).
  { rewrite (ReleaseSession_Some session owner st s Hs). unfold subscribed.
    destruct (decide (subscriptions s = ∅)) as [Hempty|Hne].
    - by rewrite Hs, Hempty, delete_empty.
    - cbn zeta. destruct (decide (delete owner (subscriptions s) = ∅));
        cbn [heap AddSessionEntry setDictTable setHeap];
        by rewrite lookup_insert_eq. }
  split; [exact Hsubs|]. split.
  { intros p Hp.
    destruct (ReleaseSession_frame session owner st)
      as (_ & _ & _ & _ & _ & Hheap & _).
    specialize (Hheap p). destruct (heap st !! p) as [s0|]; [|done].
    destruct Hheap as (subs & -> & _ & Hsame).
    by rewrite (Hsame Hp), setSubscriptions_id. }
  split; [by apply ReleaseSession_absent|].
  destruct (ReleaseSession_frame session owner st)
    as (_ & _ & _ & _ & _ & Hheap & _).
  specialize (Hheap session). rewrite Hs in Hheap.
  destruct Hheap as (subs & Hs' & _).
  eapply ReleaseSession_absent; [exact Hs'|].
  unfold subscribed in Hsubs. rewrite Hs' in Hsubs. cbn in Hsubs.
  cbn [subscriptions setSubscriptions]. rewrite Hsubs. apply lookup_delete_eq.
Qed.

Lemma ReleaseSession_removes_exactly_witness :
  (map_to_list (subscribed 0%nat (ReleaseSession 0%nat "A" afterSyn))).*1 = ["B"].
Proof.
  destruct (ReleaseSession_removes_exactly 0%nat "A" afterSyn
              synSession)
    as (Hsubs & _).
  - vm_compute. reflexivity.
  - rewrite Hsubs. vm_compute. reflexivity.
Defined.

Lemma last_subscriber (subs : gmap string SubscriptionHolder) (owner : string) :
  subs ≠ ∅ ∧ delete owner subs = ∅ ↔ ∃ holder, subs = {[owner := holder]}.
Proof.
  split.
  - intros [Hne Hdel].
    destruct (subs !! owner) as [holder|] eqn:Howner.
    + exists holder.
      rewrite <- (insert_id subs owner holder Howner), <- insert_delete_eq, Hdel.
      done.
    + by rewrite (delete_id _ _ Howner) in Hdel.
  - intros [holder ->]. split.
    + apply insert_non_empty.
    + apply delete_singleton_eq.
Qed.

(** X7. [ReleaseSession] writes the dictionary exactly when it takes the
    last subscriber off: then the entry (conntrack id of the session,
    "bypass_packetd") becomes true.  In every other case (other subscribers
    remain, the owner is not the one subscribed, the map is already empty)
    the dictionary is left as it is. *)
Theorem ReleaseSession_writes_bypass_for_last (session : Ptr) (owner : string)
    (st : World) (s : SessionEntry) :
  heap st !! session = Some s →
  ((∃ holder, subscriptions s = {[owner := holder]}) →
   dictTable (ReleaseSession session owner st)
   = <[(ConntrackID s, "bypass_packetd") := DictBool true]> (dictTable st))
  ∧ ((¬ ∃ holder, subscriptions s = {[owner := holder]}) →
     dictTable (ReleaseSession session owner st) = dictTable st).
Proof.
  intros Hs. rewrite (ReleaseSession_Some session owner st s Hs). split.
  - intros [Hne Hdel]%last_subscriber.
    by rewrite decide_False, decide_True by done.
  - intros Hnot. destruct (decide (subscriptions s = ∅)); [done|].
    cbn zeta. rewrite decide_False; [done|].
    intros Hdel. apply Hnot, last_subscriber. done.
Qed.

Lemma ReleaseSession_writes_bypass_for_last_witness :
  dictTable (ReleaseSession 0%nat "A" afterSyn) = dictTable afterSyn.
Proof.
  destruct (ReleaseSession_writes_bypass_for_last 0%nat "A" afterSyn
              synSession)
    as (_ & Hkeep).
  - vm_compute. reflexivity.
  - apply Hkeep. intros [holder Heq].
    apply (f_equal size) in Heq. vm_compute in Heq. discriminate Heq.
Defined.

(** ** What a packet does to the session records *)

Lemma parseMessage_Length (packet : Packet) (packetLength : Z)
    (mess : NfqueueMessage) :
  parseMessage packet packetLength = Some mess → Length mess = packetLength.
Proof.
  unfold parseMessage.
  destruct (LayerIPv4 packet), (LayerIPv6 packet); intros; simplify_eq; done.
Qed.

Lemma resolve_Dispatch_Length (ctid : Z) (packet : Packet)
    (packetLength pmark : Z) (st st1 : World) (session : Ptr)
    (mess : NfqueueMessage) :
  resolve ctid packet packetLength pmark st = Dispatch session mess st1 →
  Length mess = packetLength ∧ wallClock st1 = wallClock st.
Proof.
  intros Hres.
  destruct (resolve_Dispatch_inv _ _ _ _ _ _ _ _ Hres)
    as (mess0 & c & Hparse & -> & _).
  split; [by apply parseMessage_Length in Hparse|].
  unfold resolve in Hres. rewrite Hparse in Hres.
  destruct (lookupSessionEntry mess0 ctid st) as [[found|] c'].
  - destruct (heap st !! found); [|done]. destruct (_ && _).
    + rewrite createSessionEntry_eq in Hres.
      assert (Hst : wallClock st1
                    = wallClock (removeSessionEntry
                        (TupleString (MsgTuple (setSession (Some found) c' mess0))) st))
        by (injection Hres; intros; by subst st1).
      rewrite Hst. apply removeSessionEntry_frame.
    + injection Hres; intros; by subst st1.
  - destruct (negb _); [done|].
    rewrite createSessionEntry_eq in Hres. injection Hres; intros; by subst st1.
Qed.

(** The record of a session after a packet: accounted once, with a part of
    its subscriptions, for the session the packet is dispatched on; as
    before for every other. *)
Lemma nfqueueCallback_record (ctid : Z) (packet : Packet)
    (packetLength pmark : Z) (st st' : World) (out : Outcome (Z * Z))
    (p : Ptr) (s : SessionEntry) :
  nfqueueCallback ctid packet packetLength pmark st = Some (out, st') →
  heap st !! p = Some s →
  (∀ mess st1,
      resolve ctid packet packetLength pmark st = Dispatch p mess st1 →
      ∃ subs,
        heap st' !! p
        = Some (setSubscriptions subs (accountPacket (wallClock st) packetLength s))
        ∧ subs ⊆ subscriptions s)
  ∧ ((∀ mess st1,
        resolve ctid packet packetLength pmark st ≠ Dispatch p mess st1) →
     heap st' !! p = Some s).
Proof.
  intros Hcall Hp. rewrite nfqueueCallback_resolve in Hcall.
  destruct (resolve ctid packet packetLength pmark st)
    as [|st0| |session mess st1] eqn:Hres.
  - injection Hcall as _ <-. by split.
  - injection Hcall as _ <-.
    destruct (resolve_MidSession_inv _ _ _ _ _ _ Hres) as (-> & _). by split.
  - injection Hcall as _ <-. by split.
  - destruct (resolve_preserves _ _ _ _ _ _ _ _ Hres) as (_ & _ & Hkeep).
    specialize (Hkeep _ _ Hp).
    destruct (resolve_Dispatch_Length _ _ _ _ _ _ _ _ Hres) as (Hlen & Hclock).
    destruct (resolve_Dispatch_heap _ _ _ _ _ _ _ _ Hres) as [s0 Hs0].
    destruct (accountAndCall_record ctid session mess pmark (newSessionBit pmark)
                st1 s0 Hs0) as (out0 & st0 & subs & Hrec & Hframe & Hlook & Hsub).
    rewrite Hcall in Hrec. injection Hrec as <- <-.
    destruct (decide (p = session)) as [->|Hne].
    + rewrite Hs0 in Hkeep. injection Hkeep as ->. split.
      * intros mess' st1' _. exists subs. rewrite Hlen, Hclock in Hlook. done.
      * intros Hother. by destruct (Hother mess st1).
    + split; [by intros mess' st1' [= <- _ _]|]. intros _.
      destruct Hframe as (_ & _ & _ & _ & _ & Hheap & _).
      specialize (Hheap p). unfold account in Hheap. cbn [heap setHeap] in Hheap.
      rewrite lookup_alter_ne, Hkeep in Hheap by done.
      destruct Hheap as (subs' & -> & _ & Hsame).
      by rewrite (Hsame Hne), setSubscriptions_id.
Qed.

Lemma nfqueueCallback_registry (ctid : Z) (packet : Packet)
    (packetLength pmark : Z) (st st' : World) (out : Outcome (Z * Z)) :
  nfqueueCallback ctid packet packetLength pmark st = Some (out, st') →
  nfqueueList st' = nfqueueList st.
Proof.
  intros Hcall. rewrite nfqueueCallback_resolve in Hcall.
  destruct (resolve ctid packet packetLength pmark st)
    as [|st0| |session mess st1] eqn:Hres.
  - by injection Hcall as _ <-.
  - injection Hcall as _ <-.
    by destruct (resolve_MidSession_inv _ _ _ _ _ _ Hres) as (-> & _).
  - by injection Hcall as _ <-.
  - destruct (resolve_preserves _ _ _ _ _ _ _ _ Hres) as (_ & Hreg & _).
    destruct (resolve_Dispatch_heap _ _ _ _ _ _ _ _ Hres) as [s0 Hs0].
    destruct (accountAndCall_record ctid session mess pmark (newSessionBit pmark)
                st1 s0 Hs0) as (out0 & st0 & subs & Hrec & Hframe & _).
    rewrite Hcall in Hrec. injection Hrec as <- <-.
    destruct Hframe as (Hreg' & _). by rewrite Hreg'.
Qed.

(** X8. The dispatch removes no session record and changes nothing of what
    identifies one: after [nfqueueCallback] every record that existed is
    still there with the same session id, conntrack id, confirmation flag,
    client-side tuple and creation time, and with subscriptions that are a
    part of the former ones; the registry is untouched.  (The attachments
    are the plugins' to write and are left out.) *)
Theorem packet_keeps_session_identity (ctid : Z) (packet : Packet)
    (packetLength pmark : Z) (st st' : World) (out : Outcome (Z * Z)) :
  nfqueueCallback ctid packet packetLength pmark st = Some (out, st') →
  nfqueueList st' = nfqueueList st
  ∧ ∀ p s, heap st !! p = Some s →
      ∃ s', heap st' !! p = Some s'
            ∧ SessionID s' = SessionID s
            ∧ ConntrackID s' = ConntrackID s
            ∧ ConntrackConfirmed s' = ConntrackConfirmed s
            ∧ ClientSideTuple s' = ClientSideTuple s
            ∧ CreationTime s' = CreationTime s
            ∧ subscriptions s' ⊆ subscriptions s.
Proof.
  intros Hcall. split; [by eapply nfqueueCallback_registry|].
  intros p s Hp.
  destruct (nfqueueCallback_record _ _ _ _ _ _ _ _ _ Hcall Hp)
    as (Hdispatched & Hother).
  destruct (resolve ctid packet packetLength pmark st)
    as [|st0| |session mess st1] eqn:Hres.
  1-3: exists s; by split_and!; try apply Hother.
  destruct (decide (session = p)) as [->|Hne].
  - destruct (Hdispatched mess st1 eq_refl) as (subs & Hs' & Hsub).
    eexists. split; [exact Hs'|]. by split_and!.
  - exists s. split_and!; try done. apply Hother. by intros mess' st1' [= ? _ _].
Qed.

Lemma packet_keeps_session_identity_witness :
  ∃ s', heap (stateAfter 101 replyPacket 60 0x10000000 afterSyn) !! 0%nat = Some s'
        ∧ SessionID s' = SessionID synSession.
Proof.
  destruct (packet_keeps_session_identity 101 replyPacket 60 0x10000000 afterSyn
              (stateAfter 101 replyPacket 60 0x10000000 afterSyn)
              (Returned (NfAccept, 0x10000003))) as (_ & Hkeep).
  - vm_compute. reflexivity.
  - destruct (Hkeep 0%nat synSession) as (s' & Hs' & Hid & _).
    + vm_compute. reflexivity.
    + by exists s'.
Defined.

(** X9. A packet changes the record of no session but the one it is
    dispatched on. *)
Theorem packet_touches_one_record (ctid : Z) (packet : Packet)
    (packetLength pmark : Z) (st st' : World) (out : Outcome (Z * Z))
    (p : Ptr) (s : SessionEntry) :
  nfqueueCallback ctid packet packetLength pmark st = Some (out, st') →
  heap st !! p = Some s →
  (∀ mess st1, resolve ctid packet packetLength pmark st ≠ Dispatch p mess st1) →
  heap st' !! p = Some s.
Proof.
  intros Hcall Hp Hother.
  by apply (nfqueueCallback_record _ _ _ _ _ _ _ _ _ Hcall Hp).
Qed.

Lemma packet_touches_one_record_witness :
  heap (stateAfter 101 replyPacket 60 0x10000000 afterSyn) !! 0%nat
  = Some synSession.
Proof.
  apply (packet_touches_one_record 101 replyPacket 60 0x10000000 afterSyn
           (stateAfter 101 replyPacket 60 0x10000000 afterSyn)
           (Returned (NfAccept, 0x10000003))).
  - vm_compute. reflexivity.
  - vm_compute. reflexivity.
  - intros mess st1 Hres. vm_compute in Hres. discriminate Hres.
Defined.

Lemma resolve_kept (ctid : Z) (packet : Packet) (packetLength pmark : Z)
    (st : World) (mess0 : NfqueueMessage) (session : Ptr) (c : bool)
    (s : SessionEntry) :
  parseMessage packet packetLength = Some mess0 →
  lookupSessionEntry mess0 ctid st = (Some session, c) →
  heap st !! session = Some s →
  newSessionBit pmark && negb (ConntrackConfirmed s) = false →
  resolve ctid packet packetLength pmark st
  = Dispatch session (setSession (Some session) c mess0) st.
Proof.
  intros Hparse Hlook Hs Hcond. unfold resolve.
  by rewrite Hparse, Hlook, Hs, Hcond.
Qed.

(** X10. A packet that goes on with the session it found (no new-session
    bit, or the session is confirmed) is counted once: the packet and event
    counters go up by one, the byte counter by the packet length, all in
    [uint64], and the last activity time is the current time. *)
Theorem packet_on_existing_session_counted_once (ctid : Z) (packet : Packet)
    (packetLength pmark : Z) (st st' : World) (out : Outcome (Z * Z))
    (mess0 : NfqueueMessage) (session : Ptr) (c : bool) (s : SessionEntry) :
  parseMessage packet packetLength = Some mess0 →
  lookupSessionEntry mess0 ctid st = (Some session, c) →
  heap st !! session = Some s →
  newSessionBit pmark && negb (ConntrackConfirmed s) = false →
  nfqueueCallback ctid packet packetLength pmark st = Some (out, st') →
  ∃ s', heap st' !! session = Some s'
        ∧ PacketCount s' = uint64 (PacketCount s + 1)
        ∧ ByteCount s' = uint64 (ByteCount s + uint64 packetLength)
        ∧ EventCount s' = uint64 (EventCount s + 1)
        ∧ LastActivityTime s' = wallClock st.
Proof.
  intros Hparse Hlook Hs Hcond Hcall.
  pose proof (resolve_kept _ _ _ _ _ _ _ _ _ Hparse Hlook Hs Hcond) as Hres.
  destruct (nfqueueCallback_record _ _ _ _ _ _ _ _ _ Hcall Hs)
    as (Hdispatched & _).
  destruct (Hdispatched _ _ Hres) as (subs & Hs' & _).
  eexists. split; [exact Hs'|]. done.
Qed.

Lemma packet_on_existing_session_counted_once_witness :
  ∃ s', heap (stateAfter 100 replyPacket 1500 0 afterSyn) !! 0%nat = Some s'
        ∧ PacketCount s' = 3 ∧ ByteCount s' = 1620 ∧ EventCount s' = 3
        ∧ LastActivityTime s' = 1000.
Proof.
  apply (packet_on_existing_session_counted_once 100 replyPacket 1500 0 afterSyn
           (stateAfter 100 replyPacket 1500 0 afterSyn)
           (Returned (NfAccept, 3))
           (default replyMessage (parseMessage replyPacket 1500)) 0%nat false
           synSession).
  all: vm_compute; reflexivity.
Defined.

(** ** Packets of sessions nobody subscribes to *)

(** X11. A packet that goes on with a session whose subscriptions are empty
    is accepted with the mark it came with; no handler is started and the
    state changes by the accounting alone, so no bypass entry is written on
    this path. *)
Theorem packet_on_unsubscribed_session (ctid : Z) (packet : Packet)
    (packetLength pmark : Z) (st : World) (mess0 : NfqueueMessage)
    (session : Ptr) (c : bool) (s : SessionEntry) :
  parseMessage packet packetLength = Some mess0 →
  lookupSessionEntry mess0 ctid st = (Some session, c) →
  heap st !! session = Some s →
  newSessionBit pmark && negb (ConntrackConfirmed s) = false →
  subscriptions s = ∅ →
  nfqueueCallback ctid packet packetLength pmark st
  = Some (Returned (NfAccept, pmark),
          account session (setSession (Some session) c mess0) st).
Proof.
  intros Hparse Hlook Hs Hcond Hempty.
  pose proof (resolve_kept _ _ _ _ _ _ _ _ _ Hparse Hlook Hs Hcond) as Hres.
  destruct (nfqueueCallback_dispatch _ _ _ _ _ _ _ _ _ Hres Hs)
    as (run & st' & Hrun & -> & -> & _).
  rewrite Hempty in Hrun |- *.
  assert (Hnil : run = []).
  { apply Permutation_nil_r. rewrite Hrun. unfold priorityBand.
    by rewrite map_to_list_empty. }
  subst run. unfold fanoutOutcome, priorityBand.
  rewrite map_to_list_empty, map_size_empty. cbn.
  by rewrite Z.lor_0_r.
Qed.

Lemma packet_on_unsubscribed_session_witness :
  nfqueueCallback 100 replyPacket 60 0 releasedAfterSyn
  = Some (Returned (NfAccept, 0),
          account 0%nat (setSession (Some 0%nat) false
                           (default replyMessage (parseMessage replyPacket 60)))
                  releasedAfterSyn).
Proof.
  apply (packet_on_unsubscribed_session 100 replyPacket 60 0 releasedAfterSyn
           (default replyMessage (parseMessage replyPacket 60)) 0%nat false
           releasedSession).
  all: vm_compute; reflexivity.
Defined.

(** ** A flow is found again *)

Lemma nfqueueCallback_new_flow_table (ctid : Z) (packet : Packet)
    (packetLength pmark : Z) (st st' : World) (mess : NfqueueMessage)
    (out : Outcome (Z * Z)) :
  parseMessage packet packetLength = Some mess →
  sessionTable st !! TupleString (MsgTuple mess) = None →
  sessionTable st !! TupleStringReverse (MsgTuple mess) = None →
  newSessionBit pmark = true →
  nfqueueCallback ctid packet packetLength pmark st = Some (out, st') →
  sessionTable st'
  = <[TupleString (MsgTuple mess) := fresh (dom (heap st))]> (sessionTable st).
Proof.
  intros Hparse Hfwd Hrev Hbit Hcall.
  pose proof (resolve_miss_new_session ctid _ _ _ _ _ Hparse Hfwd Hrev Hbit) as Hres.
  rewrite nfqueueCallback_resolve, Hres in Hcall.
  rewrite createSessionEntry_eq in Hcall. cbn [snd] in Hcall.
  match type of Hcall with
  | accountAndCall _ ?p ?m _ _ ?w = _ =>
      destruct (accountAndCall_record ctid p m pmark (newSessionBit pmark) w
                  (freshSession (setSession None true mess) ctid st))
        as (out0 & st0 & subs & Hrec & Hframe & _)
  end.
  { simpl. by rewrite lookup_insert_eq. }
  rewrite Hcall in Hrec. injection Hrec as <- <-.
  destruct Hframe as (_ & Htable & _). by rewrite Htable.
Qed.

(** X12. Once the first packet of a new flow has gone through, the session
    table leads every message of the same tuple to the session created for
    it, with direction client to server; a message whose forward key is the
    reverse key of the flow is led to the same session through the reverse
    lookup, with direction server to client, unless the two keys coincide. *)
Theorem created_flow_found_again (ctid : Z) (packet : Packet)
    (packetLength pmark : Z) (st st' : World) (mess : NfqueueMessage)
    (out : Outcome (Z * Z)) :
  parseMessage packet packetLength = Some mess →
  sessionTable st !! TupleString (MsgTuple mess) = None →
  sessionTable st !! TupleStringReverse (MsgTuple mess) = None →
  newSessionBit pmark = true →
  nfqueueCallback ctid packet packetLength pmark st = Some (out, st') →
  (∀ mess2 ctid2,
      MsgTuple mess2 = MsgTuple mess →
      lookupSessionEntry mess2 ctid2 st' = (Some (fresh (dom (heap st))), true))
  ∧ (∀ mess2 ctid2,
      TupleString (MsgTuple mess2) = TupleStringReverse (MsgTuple mess) →
      TupleStringReverse (MsgTuple mess2) = TupleString (MsgTuple mess) →
      TupleStringReverse (MsgTuple mess) ≠ TupleString (MsgTuple mess) →
      lookupSessionEntry mess2 ctid2 st' = (Some (fresh (dom (heap st))), false)).
Proof.
  intros Hparse Hfwd Hrev Hbit Hcall.
  pose proof (nfqueueCallback_new_flow_table _ _ _ _ _ _ _ _
                Hparse Hfwd Hrev Hbit Hcall) as Htable.
  split.
  - intros mess2 ctid2 Htuple. unfold lookupSessionEntry, findSessionEntry.
    by rewrite Htable, Htuple, lookup_insert_eq.
  - intros mess2 ctid2 Hkey Hkey' Hne. unfold lookupSessionEntry, findSessionEntry.
    rewrite Htable, Hkey, Hkey'.
    rewrite lookup_insert_ne by done. by rewrite Hrev, lookup_insert_eq.
Qed.

Lemma created_flow_found_again_witness :
  lookupSessionEntry (default replyMessage (parseMessage synPacket 1500)) 7 afterSyn
  = (Some 0%nat, true)
  ∧ lookupSessionEntry (default replyMessage (parseMessage replyPacket 40)) 7 afterSyn
    = (Some 0%nat, false).
Proof.
  destruct (created_flow_found_again 100 synPacket 60 0x10000000 twoPlugins
              afterSyn (default replyMessage (parseMessage synPacket 60))
              (Returned (NfAccept, 0x10000003))) as (Hforward & Hreverse).
  1-5: vm_compute; reflexivity.
  split.
  - apply Hforward. vm_compute. reflexivity.
  - apply Hreverse.
    + vm_compute. reflexivity.
    + vm_compute. reflexivity.
    + vm_compute. discriminate.
Defined.

(** ** Attaching and mirroring *)

(** X13. [AttachNfqueueSubscriptions] followed by
    [MirrorNfqueueSubscriptions] hands back the registry, whatever the
    session held before; the other fields of the record and every other
    record are as they were. *)
Theorem attach_then_mirror (session : Ptr) (st : World) (s : SessionEntry) :
  heap st !! session = Some s →
  MirrorNfqueueSubscriptions session (AttachNfqueueSubscriptions session st)
  = Some (nfqueueList st)
  ∧ heap (AttachNfqueueSubscriptions session st) !! session
    = Some (setSubscriptions (nfqueueList st) s)
  ∧ ∀ other, other ≠ session →
      heap (AttachNfqueueSubscriptions session st) !! other = heap st !! other.
Proof.
  intros Hs. unfold MirrorNfqueueSubscriptions, AttachNfqueueSubscriptions.
  cbn [heap setHeap]. rewrite lookup_alter_eq, Hs. split_and!; try done.
  intros other Hne. by rewrite lookup_alter_ne.
Qed.

Lemma attach_then_mirror_witness :
  MirrorNfqueueSubscriptions 0%nat (AttachNfqueueSubscriptions 0%nat releasedAfterSyn)
  = Some (nfqueueList oneReleasing).
Proof.
  destruct (attach_then_mirror 0%nat releasedAfterSyn releasedSession)
    as (Hmirror & _).
  - vm_compute. reflexivity.
  - exact Hmirror.
Defined.

(** ** The guarded registration of dispatch.go *)

(** X14. [InsertNfqueueSubscription] of dispatch.go writes before it checks:
    it panics exactly when the owner was registered already, and in either
    case the registry it leaves holds the new holder under the owner, every
    other entry as before, and no owner beyond those.  So the duplicate that
    is reported has already replaced the earlier subscription. *)
Theorem InsertNfqueueSubscription_writes_before_check (owner : string)
    (priority : Z) (function : NfqueueHandlerFunction)
    (nfqueueSubList : gmap string SubscriptionHolder) :
  let r := DispatchGo.InsertNfqueueSubscription owner priority function
             nfqueueSubList in
  (r.1 = Fatal "DUPLICATE NFQUEUE SUBSCRIPTION DETECTED!"
   ↔ is_Some (nfqueueSubList !! owner))
  ∧ (r.1 = Returned () ↔ nfqueueSubList !! owner = None)
  ∧ r.2 !! owner
    = Some {| HolderOwner := owner; Priority := priority; NfqueueFunc := function |}
  ∧ (∀ other, other ≠ owner → r.2 !! other = nfqueueSubList !! other)
  ∧ dom r.2 = {[owner]} ∪ dom nfqueueSubList.
Proof.
  cbv zeta. unfold DispatchGo.InsertNfqueueSubscription.
  case_bool_decide as Hexisting; cbn [fst snd].
  - split_and!.
    + done.
    + split; [done|]. intros Hnone. rewrite Hnone in Hexisting.
      by destruct Hexisting.
    + by rewrite lookup_insert_eq.
    + intros other Hne. by rewrite lookup_insert_ne.
    + by rewrite dom_insert_L.
  - split_and!.
    + split; [done|]. intros Hsome. by destruct Hexisting.
    + split; [|done]. intros _. by apply eq_None_not_Some.
    + by rewrite lookup_insert_eq.
    + intros other Hne. by rewrite lookup_insert_ne.
    + by rewrite dom_insert_L.
Qed.

(** ** The seed of the session ids *)

Lemma Startup_seed_eq (epoch : Z) :
  sessionIndex (Startup epoch) = (epoch mod 2 ^ 32) * 2 ^ 16.
Proof.
  cbn [sessionIndex Startup]. unfold uint64.
  change 0xFFFFFFFF with (Z.ones 32).
  rewrite <- (Z.land_ones epoch 64), <- Z.land_assoc by lia.
  change (Z.land (Z.ones 64) (Z.ones 32)) with (Z.ones 32).
  rewrite Z.land_ones, Z.shiftl_mul_pow2 by lia.
  apply Z.mod_small.
  pose proof (Z.mod_pos_bound epoch (2 ^ 32) ltac:(lia)). lia.
Qed.

(** X15. [Startup] seeds [sessionIndex] with the low 32 bits of the epoch
    second, shifted left by 16: the seed is below 2^48 (highest 16 bits
    zero), a multiple of 2^16 (lowest 16 bits zero), and its middle 32 bits
    are the epoch modulo 2^32.  Nothing of the epoch beyond 32 bits reaches
    the seed, so two starts 2^32 seconds apart get the same one. *)
Theorem Startup_seed (epoch : Z) :
  sessionIndex (Startup epoch) = (epoch mod 2 ^ 32) * 2 ^ 16
  ∧ 0 ≤ sessionIndex (Startup epoch) < 2 ^ 48
  ∧ sessionIndex (Startup epoch) mod 2 ^ 16 = 0
  ∧ Z.shiftr (sessionIndex (Startup epoch)) 16 = epoch mod 2 ^ 32
  ∧ sessionIndex (Startup (epoch + 2 ^ 32)) = sessionIndex (Startup epoch).
Proof.
  pose proof (Z.mod_pos_bound epoch (2 ^ 32) ltac:(lia)) as Hrange.
  rewrite !Startup_seed_eq. split_and!.
  - done.
  - lia.
  - lia.
  - by rewrite Z.mod_mul by lia.
  - rewrite Z.shiftr_div_pow2 by lia. by rewrite Z.div_mul by lia.
  - replace (epoch + 2 ^ 32) with (epoch + 1 * 2 ^ 32) by lia.
    by rewrite Z.mod_add by lia.
Qed.

(** X16. Within the range of a 32-bit epoch the seed grows by 2^16 with each
    second: the seed of a later start lies above the seed of an earlier one
    plus any count below 2^16 per elapsed second. *)
Theorem Startup_seed_increasing (epoch later : Z) :
  0 ≤ epoch → epoch < later → later < 2 ^ 32 →
  sessionIndex (Startup later) - sessionIndex (Startup epoch)
  = (later - epoch) * 2 ^ 16
  ∧ ∀ handed, 0 ≤ handed < (later - epoch) * 2 ^ 16 →
      sessionIndex (Startup epoch) + handed < sessionIndex (Startup later).
Proof.
  intros Hlow Hlt Hhigh.
  rewrite !Startup_seed_eq, !Z.mod_small by lia. split; [lia|]. intros handed Hhanded. lia.
Qed.

Lemma Startup_seed_increasing_witness :
  sessionIndex (Startup 1001) - sessionIndex (Startup 1000) = 65536
  ∧ sessionIndex (Startup 1000) + 65535 < sessionIndex (Startup 1001).
Proof.
  destruct (Startup_seed_increasing 1000 1001) as [Hdiff Hbelow]; [lia..|].
  split; [exact Hdiff|]. apply Hbelow. lia.
Defined.

(** ** The hop count of the stats plugin *)

Lemma uint8_small (z : Z) : 0 ≤ z < 256 → uint8 z = z.
Proof. intros Hz. unfold uint8. by apply Z.mod_small. Qed.

(** X17. For a TTL that fits a byte the hop count is the distance to the
    least of 32, 64, 128 and 255 that is not below the TTL: no subtraction
    wraps, and the count is at most 126. *)
Theorem hopCount_distance_to_initial_ttl (ttl : Z) :
  0 ≤ ttl ≤ 255 →
  0 ≤ hopCount ttl ≤ 126
  ∧ ttl + hopCount ttl ∈ [32; 64; 128; 255]
  ∧ ∀ initial, initial ∈ [32; 64; 128; 255] → ttl ≤ initial →
      ttl + hopCount ttl ≤ initial.
Proof.
  intros Httl. unfold hopCount.
  repeat match goal with
         | |- context [?a <=? ?b] => destruct (Z.leb_spec a b)
         | |- context [?a <? ?b] => destruct (Z.ltb_spec a b)
         end; cbn [andb]; try lia; rewrite uint8_small by lia.
  all: split; [lia|]; split.
  all: try (intros initial Hin Hle; rewrite !elem_of_cons, elem_of_nil in Hin; lia).
  all: rewrite !elem_of_cons; lia.
Qed.

Lemma hopCount_distance_to_initial_ttl_witness :
  0 ≤ hopCount 57 ≤ 126 ∧ 57 + hopCount 57 ∈ [32; 64; 128; 255].
Proof.
  destruct (hopCount_distance_to_initial_ttl 57) as (Hrange & Hin & _); [lia|].
  by split.
Defined.

(** X18. For a message with an IP layer and a live session record,
    [logHopCount] reports the hop count of the TTL (the IPv4 TTL if there is
    an IPv4 layer, the IPv6 hop limit otherwise) under the id of that
    session, and leaves the same count in the dictionary under the conntrack
    id and the given name; nothing else of the state changes. *)
Theorem logHopCount_reports_and_stores (ctid : Z) (mess : NfqueueMessage)
    (name : string) (st : World) (p : Ptr) (s : SessionEntry) (ttl : Z) :
  Session mess = Some p →
  heap st !! p = Some s →
  match IP4Layer mess with
  | Some ip4 => ttl = IP4TTL ip4
  | None => ∃ ip6, IP6Layer mess = Some ip6 ∧ ttl = IP6HopLimit ip6
  end →
  ∃ st',
    logHopCount ctid mess name st
    = (Returned (Some {| EventName := name; EventTable := "sessions";
                         EventSQLOp := 2; EventSessionID := SessionID s;
                         EventModified := (name, hopCount ttl) |}), st')
    ∧ dictTable st' !! (ctid, name) = Some (DictUint (hopCount ttl))
    ∧ (∀ k, k ≠ (ctid, name) → dictTable st' !! k = dictTable st !! k)
    ∧ heap st' = heap st
    ∧ sessionTable st' = sessionTable st
    ∧ conntrackIndex st' = conntrackIndex st
    ∧ nfqueueList st' = nfqueueList st.
Proof.
  intros Hsession Hs Httl.
  exists (AddSessionEntry ctid name (DictUint (hopCount ttl)) st).
  split.
  - unfold logHopCount.
    destruct (IP4Layer mess) as [ip4|]; [subst ttl|destruct Httl as (ip6 & -> & ->)].
    all: by rewrite Hsession; cbn; rewrite Hs.
  - unfold AddSessionEntry. cbn. rewrite lookup_insert_eq. split_and!; try done.
    intros k Hk. by rewrite lookup_insert_ne.
Qed.

Lemma logHopCount_reports_and_stores_witness :
  ∃ st',
    logHopCount 100 replyMessage "server_hops" afterSyn
    = (Returned (Some {| EventName := "server_hops"; EventTable := "sessions";
                         EventSQLOp := 2; EventSessionID := 65536000;
                         EventModified := ("server_hops", 7) |}), st')
    ∧ dictTable st' !! (100, "server_hops") = Some (DictUint 7).
Proof.
  destruct (logHopCount_reports_and_stores 100 replyMessage "server_hops"
              afterSyn 0%nat synSession 57) as (st' & Hcall & Hdict & _).
  1-3: vm_compute; reflexivity.
  exists st'. split; [exact Hcall|exact Hdict].
Defined.

(** ** Counter differences of the stats plugin *)

(** X19. [calculateDifference] on two [uint64] readings: the previous value
    becomes the current one, and the difference is the amount that, added to
    the previous reading in [uint64], gives the current one.  It is the plain
    difference when the counter did not go back, and 2^64 less the drop when
    it did (the wrap the source leaves open). *)
Theorem calculateDifference_wraps (previous current : Z) :
  0 ≤ previous < 2 ^ 64 → 0 ≤ current < 2 ^ 64 →
  (calculateDifference previous current).2 = current
  ∧ 0 ≤ (calculateDifference previous current).1 < 2 ^ 64
  ∧ uint64 (previous + (calculateDifference previous current).1) = current
  ∧ (previous ≤ current →
     (calculateDifference previous current).1 = current - previous)
  ∧ (current < previous →
     (calculateDifference previous current).1 = 2 ^ 64 - (previous - current)).
Proof.
  intros Hprevious Hcurrent. unfold calculateDifference, uint64. cbn [fst snd].
  destruct (Z.le_gt_cases previous current) as [Hle|Hgt].
  - rewrite (Z.mod_small (current - previous)) by lia.
    split_and!; try lia.
    replace (previous + (current - previous)) with current by lia.
    by apply Z.mod_small.
  - assert (Hdiff : (current - previous) mod 2 ^ 64 = 2 ^ 64 - (previous - current)).
    { symmetry. apply (Z.mod_unique _ _ (-1)); lia. }
    rewrite Hdiff. split_and!; try lia.
    replace (previous + (2 ^ 64 - (previous - current)))
      with (current + 1 * 2 ^ 64) by lia.
    rewrite Z.mod_add by lia. by apply Z.mod_small.
Qed.

Lemma calculateDifference_wraps_witness :
  (calculateDifference 1000 400).1 = 2 ^ 64 - 600.
Proof.
  destruct (calculateDifference_wraps 1000 400) as (_ & _ & _ & _ & Hback);
    [lia..|].
  apply Hback. lia.
Defined.

(** ** Quoting for SQL *)

Lemma escapeByte_not_backslash (c : Ascii.ascii) :
  escapeByte c = None → c ≠ byteBackslash.
Proof.
  unfold escapeByte. repeat case_decide; try done.
Qed.

Lemma escapeByte_inj (c c' e : Ascii.ascii) :
  escapeByte c = Some e → escapeByte c' = Some e → c = c'.
Proof.
  unfold escapeByte. intros Hc Hc'.
  repeat case_decide; simplify_eq; try done.
  all: exfalso; vm_compute in Hc'; discriminate.
Qed.

Lemma escapeLoop_inj (s s' : string) :
  escapeLoop s = escapeLoop s' → s = s'.
Proof.
  revert s'; induction s as [|c s IH]; intros [|c' s'] Heq.
  - done.
  - simpl in Heq. destruct (escapeByte c'); discriminate.
  - simpl in Heq. destruct (escapeByte c); discriminate.
  - simpl in Heq.
    destruct (escapeByte c) as [e|] eqn:Hc, (escapeByte c') as [e'|] eqn:Hc'.
    + injection Heq as -> Hrest.
      by rewrite (escapeByte_inj _ _ _ Hc Hc'), (IH _ Hrest).
    + injection Heq as Hhead _.
      by destruct (escapeByte_not_backslash _ Hc').
    + injection Heq as Hhead _.
      by destruct (escapeByte_not_backslash _ Hc).
    + injection Heq as -> Hrest. by rewrite (IH _ Hrest).
Qed.

Lemma escape_loop (source : string) : escape source = escapeLoop source.
Proof. by destruct source. Qed.

(** X20. [escape] loses nothing: two strings with the same quoted form are
    the same string.  (A backslash in the output is always followed by the
    escape byte of one source byte, and an unescaped byte is never a
    backslash.) *)
Theorem escape_injective (source source' : string) :
  escape source = escape source' ↔ source = source'.
Proof.
  split; [|by intros ->]. rewrite !escape_loop. apply escapeLoop_inj.
Qed.

(** X21. The output of [escape] is at least as long as the source and at
    most twice as long, so the buffer of [len(source)*2] bytes is never
    written past its end; and no control-Z byte is left in it. *)
Theorem escape_length_and_ctrlZ (source : string) :
  (String.length source ≤ String.length (escape source) ≤ 2 * String.length source)%nat
  ∧ ¬ In byteCtrlZ (String.list_ascii_of_string (escape source)).
Proof.
  rewrite escape_loop. induction source as [|c source [IHlen IHin]].
  - simpl. split; [lia|tauto].
  - cbn [escapeLoop]. destruct (escapeByte c) as [e|] eqn:Hc.
    + cbn [String.length String.list_ascii_of_string]. split; [lia|].
      intros [Hhead|[Hhead|Htail]]; [discriminate Hhead| |by apply IHin].
      subst e. unfold escapeByte in Hc.
      repeat case_decide; simplify_eq; vm_compute in Hc; discriminate.
    + cbn [String.length String.list_ascii_of_string]. split; [lia|].
      intros [Hhead|Htail]; [|by apply IHin].
      subst c. vm_compute in Hc. discriminate.
Qed.

(** ** Addresses *)

(** X22. [Int2Ip] stores a 32-bit value least significant byte first: it
    gives four bytes, and reading them back in that order gives the value. *)
Theorem Int2Ip_little_endian (value : Z) :
  0 ≤ value < 2 ^ 32 →
  length (Int2Ip value) = 4%nat
  ∧ Forall (λ b, 0 ≤ b < 256) (Int2Ip value)
  ∧ bytesToInt (Int2Ip value) = value.
Proof.
  intros Hvalue. unfold Int2Ip, uint8. split; [done|]. split.
  - repeat constructor; apply Z.mod_pos_bound; lia.
  - cbn [bytesToInt]. rewrite !Z.shiftr_div_pow2 by lia.
    change (2 ^ 8) with 256. change (2 ^ 16) with 65536.
    change (2 ^ 24) with 16777216. change (2 ^ 32) with 4294967296 in Hvalue.
    Z.div_mod_to_equations. lia.
Qed.

Lemma Int2Ip_little_endian_witness :
  bytesToInt (Int2Ip 0x0100007F) = 0x0100007F.
Proof.
  destruct (Int2Ip_little_endian 0x0100007F) as (_ & _ & Hback); [lia|].
  exact Hback.
Defined.

(** ** The verdict and the merged mark *)

(** X23. Whatever the packet and the state, [nfqueueCallback] ends, and never
    with the verdict DROP.  For a packet that reaches the fan-out, on the
    session [session] with the message [mess]: whenever the call returns, the
    verdict is ACCEPT (1) and the mark is the input mark OR the [PacketMark]
    of the result of every subscription of the session; and it does return
    when the priorities of the subscriptions lie in 0..99. *)
Theorem nfqueueCallback_accept_and_merged_mark (ctid : Z) (packet : Packet)
    (packetLength pmark : Z) (st : World) :
  (∃ out st', nfqueueCallback ctid packet packetLength pmark st = Some (out, st')
              ∧ ∀ mark, out ≠ Returned (NfDrop, mark))
  ∧ ∀ session mess st1 s,
      resolve ctid packet packetLength pmark st = Dispatch session mess st1 →
      heap st1 !! session = Some s →
      let merged :=
        Z.lor pmark (orMarks mess ctid (newSessionBit pmark)
                       (map_to_list (subscriptions s))) in
      (∀ out st' verdict mark,
          nfqueueCallback ctid packet packetLength pmark st = Some (out, st') →
          out = Returned (verdict, mark) →
          verdict = NfAccept ∧ mark = merged)
      ∧ (prioritiesIn 0 99 (subscriptions s) →
         ∃ st', nfqueueCallback ctid packet packetLength pmark st
                = Some (Returned (NfAccept, merged), st')).
Proof.
  rewrite nfqueueCallback_resolve. split.
  - destruct (resolve ctid packet packetLength pmark st)
      as [|st'| |session mess st1] eqn:Hres.
    + eexists _, _. split; [done|]. intros mark [=].
    + eexists _, _. split; [done|]. intros mark [=].
    + eexists _, _. split; [done|]. intros mark [=].
    + destruct (resolve_Dispatch_heap _ _ _ _ _ _ _ _ Hres) as [s Hs].
      destruct (accountAndCall_spec ctid session mess pmark (newSessionBit pmark)
                  st1 s Hs) as (run & _ & ->).
      eexists _, _. split; [done|]. intros mark.
      destruct (fanoutOutcome_cases mess ctid (newSessionBit pmark) pmark
                  (subscriptions s)) as [->|[-> _]]; intros [=].
  - intros session mess st1 s -> Hs merged.
    destruct (accountAndCall_spec ctid session mess pmark (newSessionBit pmark)
                st1 s Hs) as (run & _ & ->).
    split.
    + intros out st' verdict mark [= <- _].
      destruct (fanoutOutcome_cases mess ctid (newSessionBit pmark) pmark
                  (subscriptions s)) as [->|[-> _]]; intros [=]; by subst.
    + intros Hprio. rewrite fanoutOutcome_Returned by done. eauto.
Qed.

Lemma nfqueueCallback_accept_and_merged_mark_witness :
  ∃ st', nfqueueCallback 100 synPacket 60 0x10000000 twoPlugins
         = Some (Returned (NfAccept, 0x10000003), st').
Proof.
  destruct (nfqueueCallback_accept_and_merged_mark 100 synPacket 60 0x10000000
              twoPlugins) as [_ Hfan].
  edestruct Hfan as [_ Hret].
  - vm_compute. reflexivity.
  - vm_compute. reflexivity.
  - apply Hret. apply (priorityBand_all _ 0 99). vm_compute. reflexivity.
Defined.
